(** * YouTube-TTS-Generator: the browser client and the speech relay

    A shallow embedding of [src/script.js], which holds two programs:
    - the browser script (lines 1-242): [generateAudio], [downloadAudio]
      and the four panel helpers, all working on the page's elements and
      on the module variable [currentAudioBlob];
    - the serverless function (lines 243-464): [handler], which checks the
      request, builds [googleRequestBody], calls the speech provider once
      and answers with the decoded audio or with a JSON error.

    JavaScript values are an inductive type, numbers are IEEE-754 doubles
    (primitive floats), exceptions are an explicit result type, and the
    mutable objects ([res], the page, the console, the network) are a state
    threaded through a small state-and-exception monad.

    Strings are [string]: one [ascii] stands for one UTF-16 code unit, so
    the development covers the strings whose code units are below 256. *)

From Stdlib Require Import ZArith NArith Lia List Bool.
From Stdlib Require Import Strings.String Strings.Ascii Strings.Byte.
From Stdlib Require Import Numbers.DecimalString.
From Stdlib Require Numbers.DecimalPos Numbers.DecimalZ.
From Stdlib Require Import Floats.PrimFloat.
From stdpp Require Import base option list gmap strings.
Import ListNotations.

Local Open Scope string_scope.

(** ** JavaScript values, truthiness, exceptions *)

Module Js.

#[local] Set Warnings "-register-all".

(** A value as [JSON.parse] or a property read can produce it. An object
    is the list of its own properties, first match wins. *)
Inductive JsVal : Type :=
| JUndefined
| JNull
| JBool (b : bool)
| JNum (x : float)
| JStr (s : string)
| JArr (items : list JsVal)
| JObj (fields : list (string * JsVal)).

(** ToBoolean: [undefined], [null], [false], [0], [-0], [NaN] and the
    empty string are falsy, everything else is truthy. *)
Definition truthy (v : JsVal) : bool :=
  match v with
  | JUndefined | JNull => false
  | JBool b => b
  | JNum x => negb (PrimFloat.eqb x 0%float || negb (PrimFloat.eqb x x))
  | JStr s => negb (String.eqb s "")
  | JArr _ | JObj _ => true
  end.

(** [a || b] *)
Definition or_else (a b : JsVal) : JsVal := if truthy a then a else b.

Definition is_nullish (v : JsVal) : bool :=
  match v with JUndefined | JNull => true | _ => false end.

(** A thrown [Error] object: its constructor name and its [message]. *)
Record JsError : Type := mkError { err_name : string; message : string }.

Inductive Exc (A : Type) : Type :=
| Ok (a : A)
| Throw (e : JsError).
Arguments Ok {A} a.
Arguments Throw {A} e.

Fixpoint assoc (k : string) (fs : list (string * JsVal)) : option JsVal :=
  match fs with
  | [] => None
  | (k', v) :: rest => if String.eqb k k' then Some v else assoc k rest
  end.

Definition type_name (v : JsVal) : string :=
  match v with JNull => "null" | _ => "undefined" end.

(** [v.k] for the property names this program reads (text, voice, speed,
    error, message, audioContent): none of them is defined on the
    prototypes of strings, numbers, booleans, arrays or plain objects, so
    only an own property of an object yields a value; reading from
    [undefined] or [null] throws a TypeError (message as V8 words it). *)
Definition get (v : JsVal) (k : string) : Exc JsVal :=
  match v with
  | JUndefined | JNull =>
      Throw (mkError "TypeError"
               ("Cannot read properties of " ++ type_name v
                ++ " (reading '" ++ k ++ "')"))
  | JObj fs => Ok (default JUndefined (assoc k fs))
  | _ => Ok JUndefined
  end.

(** [v?.k], for a [v] already evaluated. *)
Definition get_opt (v : JsVal) (k : string) : JsVal :=
  if is_nullish v then JUndefined
  else match get v k with Ok x => x | Throw _ => JUndefined end.

(** *** String methods *)

(** WhiteSpace and LineTerminator code units below 256: TAB, LF, VT, FF,
    CR, SPACE and NO-BREAK SPACE. *)
Definition is_white_space (c : ascii) : bool :=
  let n := nat_of_ascii c in
  ((9 <=? n)%nat && (n <=? 13)%nat) || (n =? 32)%nat || (n =? 160)%nat.

Fixpoint trimStart (s : string) : string :=
  match s with
  | EmptyString => EmptyString
  | String c s' => if is_white_space c then trimStart s' else s
  end.

Fixpoint trimEnd (s : string) : string :=
  match s with
  | EmptyString => EmptyString
  | String c s' =>
      let r := trimEnd s' in
      if is_white_space c && String.eqb r "" then EmptyString
      else String c r
  end.

(** [s.trim()] *)
Definition trim (s : string) : string := trimEnd (trimStart s).

(** [s.split(sep)] for a separator of one code unit; the result is never
    empty: ["".split("-")] is [[""]]. *)
Fixpoint split (sep : ascii) (s : string) : list string :=
  match s with
  | EmptyString => [EmptyString]
  | String c s' =>
      if Ascii.eqb c sep then EmptyString :: split sep s'
      else match split sep s' with
           | h :: t => String c h :: t
           | [] => [String c EmptyString]
           end
  end.

(** No code unit of [s] is [sep]. *)
Fixpoint free_of (sep : ascii) (s : string) : bool :=
  match s with
  | EmptyString => true
  | String c s' => negb (Ascii.eqb c sep) && free_of sep s'
  end.

(** [a.slice(0, n)] *)
Definition slice0 {A} (n : nat) (a : list A) : list A := take n a.

(** [a.join(sep)] on an array of strings. *)
Fixpoint join (sep : string) (a : list string) : string :=
  match a with
  | [] => ""
  | [x] => x
  | x :: rest => x ++ sep ++ join sep rest
  end.

(** A template literal's [${n}] for an integer [n]. *)
Definition int_to_string (n : Z) : string :=
  NilZero.string_of_int (Z.to_int n).

(** *** State and exceptions

    A computation reads and writes a state [S] and either returns or
    throws; the state written before a throw is kept, as in JavaScript. *)
Definition Eff (S A : Type) : Type := S -> Exc A * S.

Definition ret {S A} (a : A) : Eff S A := fun s => (Ok a, s).

Definition bind {S A B} (m : Eff S A) (k : A -> Eff S B) : Eff S B :=
  fun s => match m s with
           | (Ok a, s') => k a s'
           | (Throw e, s') => (Throw e, s')
           end.

Definition throw {S A} (e : JsError) : Eff S A := fun s => (Throw e, s).

(** An expression that may throw, evaluated without touching the state. *)
Definition lift {S A} (x : Exc A) : Eff S A := fun s => (x, s).

(** [try { body } catch (error) { handler error }] *)
Definition try_catch {S A} (body : Eff S A) (handler : JsError -> Eff S A)
  : Eff S A :=
  fun s => match body s with
           | (Ok a, s') => (Ok a, s')
           | (Throw e, s') => handler e s'
           end.

Definition modify {S} (f : S -> S) : Eff S unit := fun s => (Ok tt, f s).

End Js.

Export Js.

Declare Scope eff_scope.
Delimit Scope eff_scope with eff.
Notation "'let*' x ':=' m 'in' k" := (bind m (fun x => k))
  (at level 10, x name, m at level 100, k at level 200) : eff_scope.
Notation "m ;; k" := (bind m (fun _ => k))
  (at level 100, k at level 200, right associativity) : eff_scope.

(** ** Base64, as the relay's runtime decodes it *)

Module Base64.

#[local] Open Scope N_scope.

Definition alphabet : string :=
  "ABCDEFGHIJKLMNOPQRSTUVWXYZabcdefghijklmnopqrstuvwxyz0123456789+/".

Definition pad : ascii := "="%char.

(** The character of a 6-bit value. *)
Definition b64_char (n : N) : ascii :=
  default pad (String.get (N.to_nat n) alphabet).

(** The 6-bit value of a character: the standard alphabet, and the
    URL-safe [-] and [_] which the decoder accepts as well. *)
Definition unbase64 (c : ascii) : option N :=
  let n := N_of_ascii c in
  if (65 <=? n) && (n <=? 90) then Some (n - 65)
  else if (97 <=? n) && (n <=? 122) then Some (n - 71)
  else if (48 <=? n) && (n <=? 57) then Some (n + 4)
  else if (n =? 43) || (n =? 45) then Some 62
  else if (n =? 47) || (n =? 95) then Some 63
  else None.

(** A value stored into one byte of a buffer: the low 8 bits. *)
Definition to_byte (n : N) : byte :=
  default x00 (Byte.of_N (N.land n 255)).

Definition sextet0 (a : N) : N := N.shiftr a 2.
Definition sextet1 (a b : N) : N :=
  N.lor (N.shiftl (N.land a 3) 4) (N.shiftr b 4).
Definition sextet2 (b c : N) : N :=
  N.lor (N.shiftl (N.land b 15) 2) (N.shiftr c 6).
Definition sextet3 (c : N) : N := N.land c 63.

(** Modelled from the spec: the provider's base64 encoder is not part of
    this repository; the spec names the encoding only ("base64"), so this
    is RFC 4648 section 4: three bytes give four characters, and a last
    group of one or two bytes is padded with [=]. *)
Fixpoint encode (bs : list byte) : string :=
  match bs with
  | [] => ""
  | [a] =>
      let a := Byte.to_N a in
      String (b64_char (sextet0 a)) (String (b64_char (sextet1 a 0))
        (String pad (String pad "")))
  | [a; b] =>
      let a := Byte.to_N a in
      let b := Byte.to_N b in
      String (b64_char (sextet0 a)) (String (b64_char (sextet1 a b))
        (String (b64_char (sextet2 b 0)) (String pad "")))
  | a :: b :: c :: rest =>
      let a := Byte.to_N a in
      let b := Byte.to_N b in
      let c := Byte.to_N c in
      String (b64_char (sextet0 a)) (String (b64_char (sextet1 a b))
        (String (b64_char (sextet2 b c)) (String (b64_char (sextet3 c))
          (encode rest))))
  end.

(** The 6-bit values the decoder reads: characters outside the alphabet
    are skipped, and the first [=] ends the input. *)
Fixpoint sextets (s : string) : list N :=
  match s with
  | EmptyString => []
  | String c s' =>
      if Ascii.eqb c pad then []
      else match unbase64 c with
           | Some v => v :: sextets s'
           | None => sextets s'
           end
  end.

(** Four 6-bit values give three bytes; a last group of two or three
    values gives one or two bytes, a single left-over value gives none. *)
Fixpoint bytes_of_sextets (l : list N) : list byte :=
  match l with
  | a :: b :: c :: d :: rest =>
      to_byte (N.lor (N.shiftl a 2) (N.shiftr b 4))
        :: to_byte (N.lor (N.shiftl (N.land b 15) 4) (N.shiftr c 2))
        :: to_byte (N.lor (N.shiftl (N.land c 3) 6) d)
        :: bytes_of_sextets rest
  | [a; b; c] =>
      [to_byte (N.lor (N.shiftl a 2) (N.shiftr b 4));
       to_byte (N.lor (N.shiftl (N.land b 15) 4) (N.shiftr c 2))]
  | [a; b] => [to_byte (N.lor (N.shiftl a 2) (N.shiftr b 4))]
  | _ => []
  end.

(** Modelled from the spec: [Buffer.from(s, 'base64')] (script.js line
    385) is a function of the Node.js runtime, not of this repository.
    The spec says it "decodes the base64 string into raw bytes"; this is
    the runtime's forgiving decoder for that step. *)
Definition decode (s : string) : list byte := bytes_of_sextets (sextets s).

End Base64.

(** ** What the host runtime supplies

    The built-in functions the two programs call whose results no
    property below depends on: they stay an interface. *)
Class Host : Type := {
  (** [parseFloat(s)] *)
  parseFloat : string -> float;
  (** [String(v)] for a [v] that is not a string, as [new Error(v)] applies
      it to its argument. *)
  ToString_other : JsVal -> string;
  (** [Buffer.from(v, 'base64')] for a truthy [v] that is not a string: it
      throws a TypeError for a number or [true], and copies an array. *)
  Buffer_from_other : JsVal -> Exc (list byte)
}.

(** ** The relay: [export default async function handler(req, res)] *)

Module Relay.

#[local] Open Scope Z_scope.
#[local] Open Scope eff_scope.

Inductive HeaderValue : Type :=
| HStr (s : string)
| HNum (n : nat).

Inductive Payload : Type :=
| EmptyBody                      (* [res.end()] *)
| JsonBody (v : JsVal)           (* [res.json(v)] *)
| BytesBody (b : list byte).     (* [res.send(buffer)] *)

(** The [res] object: the headers set so far, the status code, and what
    was sent, if anything was. *)
Record Response : Type := mkResponse {
  headers : gmap string HeaderValue;
  statusCode : Z;
  sent : option Payload
}.

Record Request : Type := mkRequest {
  method : string;
  body : JsVal
}.

(** One call of [fetch(url, { method, headers, body })]; [fetch_body] is
    the value handed to [JSON.stringify]. *)
Record FetchCall : Type := mkFetchCall {
  url : string;
  fetch_method : string;
  fetch_headers : list (string * string);
  fetch_body : JsVal
}.

(** What the relay reads of the provider's response: [response.status]
    and the outcome of [await response.json()]. *)
Record UpstreamResponse : Type := mkUpstreamResponse {
  response_status : Z;
  response_json : Exc JsVal
}.

(** [response.ok] *)
Definition response_ok (r : UpstreamResponse) : bool :=
  (200 <=? response_status r) && (response_status r <=? 299).

Inductive LogEntry : Type :=
| LogValue (label : string) (v : JsVal)
| LogError (label : string) (e : JsError).

(** Everything one invocation can change. *)
Record World : Type := mkWorld {
  res : Response;
  fetched : list FetchCall;
  console : list LogEntry
}.

Definition fresh_res : Response :=
  {| headers := ∅; statusCode := 200; sent := None |}.

Definition fresh_world : World :=
  {| res := fresh_res; fetched := []; console := [] |}.

Definition on_res (f : Response -> Response) : Eff World unit :=
  modify (fun w =>
    {| res := f (res w); fetched := fetched w; console := console w |}).

Definition res_setHeader (name : string) (v : HeaderValue)
  : Eff World unit :=
  on_res (fun r => {| headers := <[name := v]> (headers r);
                      statusCode := statusCode r; sent := sent r |}).

Definition res_status (code : Z) : Eff World unit :=
  on_res (fun r => {| headers := headers r; statusCode := code;
                      sent := sent r |}).

Definition res_end : Eff World unit :=
  on_res (fun r => {| headers := headers r; statusCode := statusCode r;
                      sent := Some EmptyBody |}).

(** "Sends JSON response; automatically sets Content-Type header". *)
Definition res_json (v : JsVal) : Eff World unit :=
  on_res (fun r =>
    {| headers := <["Content-Type" :=
                      HStr "application/json; charset=utf-8"]> (headers r);
       statusCode := statusCode r; sent := Some (JsonBody v) |}).

Definition res_send (b : list byte) : Eff World unit :=
  on_res (fun r => {| headers := headers r; statusCode := statusCode r;
                      sent := Some (BytesBody b) |}).

Definition console_error (e : LogEntry) : Eff World unit :=
  modify (fun w => {| res := res w; fetched := fetched w;
                      console := console w ++ [e] |}).

(** [{ error: msg }] *)
Definition error_body (msg : JsVal) : JsVal := JObj [("error", msg)].

(** [const { k } = v]: a TypeError when [v] is [undefined] or [null]. *)
Definition destructure (v : JsVal) (k : string) : Exc JsVal :=
  if is_nullish v then
    Throw (mkError "TypeError"
             ("Cannot destructure property '" ++ k
              ++ "' of 'req.body' as it is " ++ type_name v ++ "."))
  else get v k.

(** Lines 320-334. [voice.split] exists on strings only. *)
Definition googleRequestBody (text voice speed : JsVal) : Exc JsVal :=
  match voice with
  | JStr v =>
      Ok (JObj
        [("input", JObj [("text", text)]);
         ("voice", JObj
            [("languageCode", JStr (join "-" (slice0 2 (split "-" v))));
             ("name", voice)]);
         ("audioConfig", JObj
            [("audioEncoding", JStr "MP3");
             ("speakingRate", or_else speed (JNum 1.0));
             ("pitch", JNum 0.0);
             ("volumeGainDb", JNum 0.0)])])
  | _ => Throw (mkError "TypeError" "voice.split is not a function")
  end.

Section Handler.

Context `{Host}.

(** [process.env.GOOGLE_CLOUD_API_KEY]: a string, or absent. *)
Variable GOOGLE_CLOUD_API_KEY : option string.

(** The provider and the network between: what [await fetch(...)]
    gives for a call, a response or a thrown error. *)
Variable upstream : FetchCall -> Exc UpstreamResponse.

Definition fetch (c : FetchCall) : Eff World UpstreamResponse :=
  fun w => (upstream c,
            {| res := res w; fetched := fetched w ++ [c];
               console := console w |}).

(** [Buffer.from(v, 'base64')] *)
Definition Buffer_from (v : JsVal) : Exc (list byte) :=
  match v with
  | JStr s => Ok (Base64.decode s)
  | _ => Buffer_from_other v
  end.

(** The body of the [try] block, lines 340-395. *)
Definition call_provider (apiKey : string) (googleRequestBody : JsVal)
  : Eff World unit :=
  let* response :=
    fetch {| url :=
               "https://texttospeech.googleapis.com/v1/text:synthesize?key="
               ++ apiKey;
             fetch_method := "POST";
             fetch_headers := [("Content-Type", "application/json")];
             fetch_body := googleRequestBody |} in
  if negb (response_ok response) then
    let* errorData := lift (response_json response) in
    console_error (LogValue "Google API Error:" errorData) ;;
    res_status (response_status response) ;;
    let* error := lift (get errorData "error") in
    res_json (error_body
                (or_else (get_opt error "message")
                         (JStr "Failed to generate speech")))
  else
    let* data := lift (response_json response) in
    let* audioContent := lift (get data "audioContent") in
    if negb (truthy audioContent) then
      res_status 500 ;;
      res_json (error_body (JStr "No audio content received from Google"))
    else
      let* audioBuffer := lift (Buffer_from audioContent) in
      res_setHeader "Content-Type" (HStr "audio/mpeg") ;;
      res_setHeader "Content-Length" (HNum (length audioBuffer)) ;;
      res_status 200 ;;
      res_send audioBuffer.

(** The [catch (error)] block, lines 397-405. *)
Definition on_error (error : JsError) : Eff World unit :=
  console_error (LogError "Error:" error) ;;
  res_status 500 ;;
  res_json (error_body
              (JStr ("Internal server error: " ++ message error))).

(** Lines 254-406. [!apiKey] holds for an absent variable and for an empty
    one. *)
Definition handler (req : Request) : Eff World unit :=
  res_setHeader "Access-Control-Allow-Origin" (HStr "*") ;;
  res_setHeader "Access-Control-Allow-Methods" (HStr "POST, OPTIONS") ;;
  res_setHeader "Access-Control-Allow-Headers" (HStr "Content-Type") ;;
  if String.eqb (method req) "OPTIONS" then
    res_status 200 ;; res_end
  else if negb (String.eqb (method req) "POST") then
    res_status 405 ;;
    res_json (error_body (JStr "Method not allowed. Use POST."))
  else
    let* text := lift (destructure (body req) "text") in
    let* voice := lift (destructure (body req) "voice") in
    let* speed := lift (destructure (body req) "speed") in
    if negb (truthy text) || negb (truthy voice) then
      res_status 400 ;;
      res_json (error_body
                  (JStr "Missing required fields: text and voice"))
    else
      match GOOGLE_CLOUD_API_KEY with
      | None | Some EmptyString =>
          res_status 500 ;;
          res_json (error_body
             (JStr "Server configuration error: API key not found"))
      | Some apiKey =>
          let* googleRequestBody :=
            lift (googleRequestBody text voice speed) in
          try_catch (call_provider apiKey googleRequestBody) on_error
      end.

(** One invocation, from a [res] nothing was written to. The first
    component is [Ok tt] when the function returned and [Throw e] when
    it ended by an exception nobody caught. *)
Definition invoke (req : Request) : Exc unit * World :=
  handler req fresh_world.

End Handler.

End Relay.

(** ** The browser script: [generateAudio] and [downloadAudio] *)

Module Client.

#[local] Open Scope Z_scope.
#[local] Open Scope eff_scope.

(** A [Blob]: its bytes and its media type. *)
Record Blob : Type := mkBlob {
  blob_bytes : list byte;
  blob_type : string
}.

(** The three controls [generateAudio] reads. *)
Record Form : Type := mkForm {
  scriptInput_value : string;
  voiceSelect_value : string;
  speedRange_value : string
}.

(** One call of [fetch(url, { method, headers, body })]; [request_body]
    is the value handed to [JSON.stringify]. *)
Record RelayRequest : Type := mkRelayRequest {
  request_url : string;
  request_method : string;
  request_headers : list (string * string);
  request_body : JsVal
}.

(** What the script reads of the relay's response: [response.status] and
    the outcomes of [await response.json()] and [await response.blob()]. *)
Record RelayResponse : Type := mkRelayResponse {
  response_status : Z;
  response_json : Exc JsVal;
  response_blob : Exc Blob
}.

(** [response.ok]: "true if status code is 200-299". *)
Definition response_ok (r : RelayResponse) : bool :=
  (200 <=? response_status r) && (response_status r <=? 299).

(** The elements the helpers write to: the [show] class of the four
    panels, the button's [disabled], the error text, and the blob behind
    the object URL in [audioPlayer.src]. *)
Record Page : Type := mkPage {
  errorText_textContent : string;
  loadingState_show : bool;
  errorMessage_show : bool;
  successMessage_show : bool;
  audioPreview_show : bool;
  generateBtn_disabled : bool;
  audioPlayer_src : option Blob
}.

(** The page, the module variable [currentAudioBlob] ([None] is [null]),
    the requests sent, the files saved, and the console. *)
Record World : Type := mkWorld {
  page : Page;
  currentAudioBlob : option Blob;
  requests : list RelayRequest;
  downloads : list (Blob * string);
  console : list JsError
}.

Definition initial_page : Page :=
  {| errorText_textContent := ""; loadingState_show := false;
     errorMessage_show := false; successMessage_show := false;
     audioPreview_show := false; generateBtn_disabled := false;
     audioPlayer_src := None |}.

Definition initial_world : World :=
  {| page := initial_page; currentAudioBlob := None; requests := [];
     downloads := []; console := [] |}.

Definition on_page (f : Page -> Page) : Eff World unit :=
  modify (fun w =>
    {| page := f (page w); currentAudioBlob := currentAudioBlob w;
       requests := requests w; downloads := downloads w;
       console := console w |}).

(** Lines 51-57. *)
Definition showLoading : Eff World unit :=
  on_page (fun p =>
    {| errorText_textContent := errorText_textContent p;
       loadingState_show := true;
       errorMessage_show := false;
       successMessage_show := false;
       audioPreview_show := false;
       generateBtn_disabled := true;
       audioPlayer_src := audioPlayer_src p |}).

(** Lines 60-63. *)
Definition hideLoading : Eff World unit :=
  on_page (fun p =>
    {| errorText_textContent := errorText_textContent p;
       loadingState_show := false;
       errorMessage_show := errorMessage_show p;
       successMessage_show := successMessage_show p;
       audioPreview_show := audioPreview_show p;
       generateBtn_disabled := false;
       audioPlayer_src := audioPlayer_src p |}).

(** Lines 66-70. *)
Definition showError (message : string) : Eff World unit :=
  on_page (fun p =>
    {| errorText_textContent := message;
       loadingState_show := loadingState_show p;
       errorMessage_show := true;
       successMessage_show := successMessage_show p;
       audioPreview_show := audioPreview_show p;
       generateBtn_disabled := generateBtn_disabled p;
       audioPlayer_src := audioPlayer_src p |}) ;;
  hideLoading.

(** Lines 73-77. *)
Definition showSuccess : Eff World unit :=
  on_page (fun p =>
    {| errorText_textContent := errorText_textContent p;
       loadingState_show := loadingState_show p;
       errorMessage_show := errorMessage_show p;
       successMessage_show := true;
       audioPreview_show := true;
       generateBtn_disabled := generateBtn_disabled p;
       audioPlayer_src := audioPlayer_src p |}) ;;
  hideLoading.

Definition set_currentAudioBlob (b : Blob) : Eff World unit :=
  modify (fun w =>
    {| page := page w; currentAudioBlob := Some b;
       requests := requests w; downloads := downloads w;
       console := console w |}).

(** [audioPlayer.src = URL.createObjectURL(b)] *)
Definition set_audioPlayer_src (b : Blob) : Eff World unit :=
  on_page (fun p =>
    {| errorText_textContent := errorText_textContent p;
       loadingState_show := loadingState_show p;
       errorMessage_show := errorMessage_show p;
       successMessage_show := successMessage_show p;
       audioPreview_show := audioPreview_show p;
       generateBtn_disabled := generateBtn_disabled p;
       audioPlayer_src := Some b |}).

Definition console_error (e : JsError) : Eff World unit :=
  modify (fun w =>
    {| page := page w; currentAudioBlob := currentAudioBlob w;
       requests := requests w; downloads := downloads w;
       console := console w ++ [e] |}).

(** The [<a>] element clicked with [href] the blob's URL and [download]
    the file name. *)
Definition save_file (b : Blob) (name : string) : Eff World unit :=
  modify (fun w =>
    {| page := page w; currentAudioBlob := currentAudioBlob w;
       requests := requests w; downloads := downloads w ++ [(b, name)];
       console := console w |}).

Section Script.

Context `{Host}.

(** [new Error(v)]: the message is [String(v)]. *)
Definition new_Error (v : JsVal) : JsError :=
  mkError "Error"
    match v with JStr s => s | _ => ToString_other v end.

(** The relay and the network between: what [await fetch(...)] gives
    for a request, a response or a thrown error. *)
Variable relay : RelayRequest -> Exc RelayResponse.

Definition fetch (r : RelayRequest) : Eff World RelayResponse :=
  fun w => (relay r,
            {| page := page w; currentAudioBlob := currentAudioBlob w;
               requests := requests w ++ [r]; downloads := downloads w;
               console := console w |}).

(** Lines 86-174. *)
Definition generateAudio (form : Form) : Eff World unit :=
  let text := trim (scriptInput_value form) in
  let voice := voiceSelect_value form in
  let speed := speedRange_value form in
  if negb (truthy (JStr text)) then
    showError "Please enter some text for your script"
  else if (String.length text <? 10)%nat then
    showError "Script is too short. Please add more text."
  else
    showLoading ;;
    try_catch
      (let* response :=
         fetch {| request_url := "/api/generate-speech";
                  request_method := "POST";
                  request_headers :=
                    [("Content-Type", "application/json")];
                  request_body :=
                    JObj [("text", JStr text);
                          ("voice", JStr voice);
                          ("speed", JNum (parseFloat speed))] |} in
       (if negb (response_ok response) then
          let* errorData := lift (response_json response) in
          let* error := lift (get errorData "error") in
          throw (new_Error
                   (or_else error (JStr "Failed to generate audio")))
        else ret tt) ;;
       let* audioBlob := lift (response_blob response) in
       set_currentAudioBlob audioBlob ;;
       set_audioPlayer_src audioBlob ;;
       showSuccess)
      (fun error =>
         console_error error ;;
         showError (message error)).

End Script.

(** Lines 179-197; [now] is [Date.now()]. A [Blob] object is truthy, so
    [!currentAudioBlob] holds exactly for [null]. *)
Definition downloadAudio (now : Z) : Eff World unit :=
  fun w =>
    match currentAudioBlob w with
    | None =>
        showError "No audio to download. Please generate audio first." w
    | Some blob =>
        save_file blob ("voiceover-" ++ int_to_string now ++ ".mp3") w
    end.

(** The two buttons. A click on [generateBtn] comes with the form as it
    stands and with what the network will answer. *)
Inductive Event : Type :=
| Generate (form : Form) (relay : RelayRequest -> Exc RelayResponse)
| Download (now : Z).

Definition click `{Host} (e : Event) : Eff World unit :=
  match e with
  | Generate form relay => generateAudio relay form
  | Download now => downloadAudio now
  end.

(** The world after a sequence of clicks, each handled to its end before
    the next. *)
Definition session `{Host} (es : list Event) (w : World) : World :=
  fold_left (fun w e => snd (click e w)) es w.

End Client.

(** ** Vocabulary of the properties *)

(** A host for the concrete runs below: it rejects what is not a string,
    as Node.js does for numbers and booleans. *)
Definition example_host : Host :=
  {| parseFloat := fun _ => 1%float;
     ToString_other := fun _ => "[object Object]";
     Buffer_from_other := fun _ =>
       Throw (mkError "TypeError"
                "The first argument must be of type string") |}.

Module ClientSpec.

Import Client.

Section Attempt.

Context `{Host}.

(** The request a form gives rise to, once its text passed validation
    (lines 120-132). *)
Definition request_of (form : Form) : RelayRequest :=
  {| request_url := "/api/generate-speech";
     request_method := "POST";
     request_headers := [("Content-Type", "application/json")];
     request_body :=
       JObj [("text", JStr (trim (scriptInput_value form)));
             ("voice", JStr (voiceSelect_value form));
             ("speed", JNum (parseFloat (speedRange_value form)))] |}.

(** The ways a generation attempt fails:
    client validation, a thrown network error, an error response of
    the relay, and a body that cannot be read. *)
Inductive Failed (relay : RelayRequest -> Exc RelayResponse)
  (form : Form) : Prop :=
| validation_failed :
    (String.length (trim (scriptInput_value form)) < 10)%nat ->
    Failed relay form
| network_failed e :
    (10 <= String.length (trim (scriptInput_value form)))%nat ->
    relay (request_of form) = Throw e ->
    Failed relay form
| relay_refused r :
    (10 <= String.length (trim (scriptInput_value form)))%nat ->
    relay (request_of form) = Ok r ->
    response_ok r = false ->
    Failed relay form
| body_unreadable r e :
    (10 <= String.length (trim (scriptInput_value form)))%nat ->
    relay (request_of form) = Ok r ->
    response_ok r = true ->
    response_blob r = Throw e ->
    Failed relay form.

(** A successful generation: the text is valid, the relay answers with
    a success status, and the body is read as [blob]. *)
Definition Succeeded (relay : RelayRequest -> Exc RelayResponse)
  (form : Form) (blob : Blob) : Prop :=
  (10 <= String.length (trim (scriptInput_value form)))%nat /\
  exists r, relay (request_of form) = Ok r /\
            response_ok r = true /\ response_blob r = Ok blob.

(** The artifact an attempt delivers, if it succeeds. *)
Definition generated (relay : RelayRequest -> Exc RelayResponse)
  (form : Form) : option Blob :=
  if (String.length (trim (scriptInput_value form)) <? 10)%nat then None
  else match relay (request_of form) with
       | Ok r =>
           if response_ok r then
             match response_blob r with
             | Ok blob => Some blob
             | Throw _ => None
             end
           else None
       | Throw _ => None
       end.

(** The artifact of the last successful generation in a sequence of
    clicks, starting from [acc]. *)
Fixpoint last_generated (es : list Event) (acc : option Blob)
  : option Blob :=
  match es with
  | [] => acc
  | Generate form relay :: es' =>
      last_generated es'
        (match generated relay form with
         | Some blob => Some blob
         | None => acc
         end)
  | Download _ :: es' => last_generated es' acc
  end.

End Attempt.

(** A validation failure as the page and the network show it: the error
    panel carries [msg] and no request went out. *)
Definition rejected_with (msg : string) (w w' : World) : Prop :=
  errorText_textContent (page w') = msg /\
  errorMessage_show (page w') = true /\
  requests w' = requests w.

(** *** Scenarios *)

(** Scenario A's form, and Scenario B's, whose text is too short. *)
Definition hello_form : Form :=
  {| scriptInput_value := "  Hello world, this is a test. ";
     voiceSelect_value := "en-US-Neural2-A";
     speedRange_value := "1.0" |}.

Definition short_form : Form :=
  {| scriptInput_value := "short";
     voiceSelect_value := "en-US-Neural2-A";
     speedRange_value := "1.0" |}.

Definition hello_blob : Blob :=
  {| blob_bytes := [x48; x65; x6c; x6c; x6f]; blob_type := "audio/mpeg" |}.

(** A relay that answers 200 with [hello_blob]; its body is no JSON. *)
Definition relay_ok : RelayRequest -> Exc RelayResponse :=
  fun _ => Ok {| response_status := 200;
                 response_json :=
                   Throw (mkError "SyntaxError" "Unexpected token");
                 response_blob := Ok hello_blob |}.

(** A relay that refuses with 500 and Scenario D's body. *)
Definition relay_misconfigured : RelayRequest -> Exc RelayResponse :=
  fun _ => Ok {| response_status := 500;
                 response_json :=
                   Ok (JObj [("error", JStr
                     "Server configuration error: API key not found")]);
                 response_blob :=
                   Ok {| blob_bytes := []; blob_type := "application/json" |}
              |}.

End ClientSpec.

(** A property checked on every number below [k]. *)
Definition all_below (k : nat) (P : N -> bool) : bool :=
  forallb P (map N.of_nat (seq 0 k)).

Module RelaySpec.

Import Relay.

(** The body has fields to read: it is neither [undefined] nor [null]. *)
Definition has_body (req : Request) : Prop :=
  is_nullish (body req) = false.

(** [req.body.k], [undefined] when the body has no such field. *)
Definition field (k : string) (req : Request) : JsVal :=
  get_opt (body req) k.

(** A field is missing as line 297 tests it: absent, or falsy. *)
Definition missing (k : string) (req : Request) : Prop :=
  truthy (field k req) = false.

(** A field is present when that test lets it pass. *)
Definition present (k : string) (req : Request) : Prop :=
  truthy (field k req) = true.

(** The world once the three CORS headers are set (lines 264-266). *)
Definition with_cors (w : World) : World :=
  {| res :=
       {| headers :=
            <["Access-Control-Allow-Headers" := HStr "Content-Type"]>
              (<["Access-Control-Allow-Methods" := HStr "POST, OPTIONS"]>
                 (<["Access-Control-Allow-Origin" := HStr "*"]>
                    (headers (res w))));
          statusCode := statusCode (res w);
          sent := sent (res w) |};
     fetched := fetched w;
     console := console w |}.

(** The one call the relay makes to the provider. *)
Definition provider_call (apiKey : string) (payload : JsVal) : FetchCall :=
  {| url := "https://texttospeech.googleapis.com/v1/text:synthesize?key="
            ++ apiKey;
     fetch_method := "POST";
     fetch_headers := [("Content-Type", "application/json")];
     fetch_body := payload |}.

(** The payload of section 6 of the spec, field by field. *)
Definition upstream_payload (text : JsVal) (voice : string) (speed : JsVal)
  : JsVal :=
  JObj
    [("input", JObj [("text", text)]);
     ("voice", JObj
        [("languageCode", JStr (join "-" (slice0 2 (split "-" voice))));
         ("name", JStr voice)]);
     ("audioConfig", JObj
        [("audioEncoding", JStr "MP3");
         ("speakingRate", if truthy speed then speed else JNum 1%float);
         ("pitch", JNum 0%float);
         ("volumeGainDb", JNum 0%float)])].

(** The relay answered with [code] and the JSON body [{ error: msg }]. *)
Definition answered_error (w : World) (code : Z) (msg : JsVal) : Prop :=
  statusCode (res w) = code /\
  sent (res w) = Some (JsonBody (error_body msg)).

(** [errorData.error?.message] for an [errorData] that is not [null]. *)
Definition nested_message (errorData : JsVal) : JsVal :=
  get_opt (get_opt errorData "error") "message".

(** The invocation called the provider with [c]. *)
Definition contacted `{Host} (key : option string)
  (upstream : FetchCall -> Exc UpstreamResponse) (req : Request)
  (c : FetchCall) : Prop :=
  In c (fetched (snd (invoke key upstream req))).

(** *** The scenarios of section 8 of the spec *)

(** Scenario A's request. *)
Definition hello_request : Request :=
  {| method := "POST";
     body := JObj [("text", JStr "Hello world, this is a test.");
                   ("voice", JStr "en-US-Neural2-A");
                   ("speed", JNum 1%float)] |}.

(** Scenario C's request: no [voice]. *)
Definition voiceless_request : Request :=
  {| method := "POST";
     body := JObj [("text", JStr "Hello world, this is a test.");
                   ("speed", JNum 1%float)] |}.

Definition hello_call : FetchCall :=
  provider_call "secret"
    (upstream_payload (JStr "Hello world, this is a test.")
       "en-US-Neural2-A" (JNum 1%float)).

(** A provider answering with the base64 of the five bytes of "Hello". *)
Definition hello_response : UpstreamResponse :=
  {| response_status := 200;
     response_json := Ok (JObj [("audioContent", JStr "SGVsbG8=")]) |}.

(** Scenario E's provider: 403 with a message. *)
Definition quota_response : UpstreamResponse :=
  {| response_status := 403;
     response_json :=
       Ok (JObj [("error", JObj [("message", JStr "quota exceeded")])]) |}.


(** A provider answering 200 with an audio field that is present and
    empty: the base64 of no bytes. *)
Definition empty_audio_response : UpstreamResponse :=
  {| response_status := 200;
     response_json := Ok (JObj [("audioContent", JStr "")]) |}.

(** A provider answering 403 with a nested message that is present and
    empty. *)
Definition empty_message_response : UpstreamResponse :=
  {| response_status := 403;
     response_json :=
       Ok (JObj [("error", JObj [("message", JStr "")])]) |}.

(** A request whose body has both fields, the text being empty. *)
Definition empty_text_request : Request :=
  {| method := "POST";
     body := JObj [("text", JStr "");
                   ("voice", JStr "en-US-Neural2-A");
                   ("speed", JNum 1%float)] |}.

(** A provider that gives the same answer to every call. *)
Definition answering (r : UpstreamResponse)
  : FetchCall -> Exc UpstreamResponse :=
  fun _ => Ok r.

(** A network that fails. *)
Definition unreachable : FetchCall -> Exc UpstreamResponse :=
  fun _ => Throw (mkError "TypeError" "fetch failed").

End RelaySpec.

(** ** Vocabulary of the further properties *)

Module RelayShape.

Import Relay RelaySpec.
#[local] Open Scope Z_scope.

(** A status code in 200-299, as [response.ok] reads it on either side. *)
Definition status_ok (code : Z) : bool :=
  (200 <=? code) && (code <=? 299).

(** The three headers of lines 264-266 are on the response. *)
Definition cors_headers_set (r : Response) : Prop :=
  headers r !! "Access-Control-Allow-Origin" = Some (HStr "*") /\
  headers r !! "Access-Control-Allow-Methods" = Some (HStr "POST, OPTIONS")
  /\ headers r !! "Access-Control-Allow-Headers" = Some (HStr "Content-Type").

(** [process.env.GOOGLE_CLOUD_API_KEY] is truthy: set, and not empty. *)
Definition key_available (key : option string) : bool :=
  match key with
  | Some (String _ _) => true
  | _ => false
  end.

Definition is_string (v : JsVal) : bool :=
  match v with JStr _ => true | _ => false end.

(** The requests on which [handler] ends by an exception nobody catches:
    a POST whose body is [undefined] or [null] (line 292), and a POST
    that passes the checks of lines 297 and 309 with a voice that is not
    a string (line 325). *)
Definition ends_uncaught (key : option string) (req : Request) : bool :=
  String.eqb (method req) "POST"
  && (is_nullish (body req)
      || (truthy (field "text" req) && truthy (field "voice" req)
          && key_available key && negb (is_string (field "voice" req)))).

(** The requests for which the provider is called: a POST with a truthy
    text, a voice that is a non-empty string, and a credential. *)
Definition reaches_provider (key : option string) (req : Request) : bool :=
  String.eqb (method req) "POST"
  && truthy (field "text" req)
  && truthy (field "voice" req) && is_string (field "voice" req)
  && key_available key.

(** An entry of the relay's console is one of the two of lines 358 and
    401. *)
Definition logged_by_relay (entry : LogEntry) : Prop :=
  match entry with
  | LogValue label _ => label = "Google API Error:"
  | LogError label _ => label = "Error:"
  end.


(** A provider that refuses with 503 and a body that is no JSON. *)
Definition html_error_response : UpstreamResponse :=
  {| response_status := 503;
     response_json := Throw (mkError "SyntaxError" "Unexpected token <") |}.

(** A pre-flight request and a GET, neither with a body. *)
Definition preflight_request : Request :=
  {| method := "OPTIONS"; body := JUndefined |}.

Definition get_request : Request :=
  {| method := "GET"; body := JUndefined |}.

End RelayShape.

Module ClientShape.

Import Client ClientSpec.

(** The listener of lines 30-33: [charCount.textContent] after an input
    event on a script of value [value]. *)
Definition charCount_textContent (value : string) : nat :=
  String.length value.

(** Every code unit of [s] is white space. *)
Fixpoint blank (s : string) : bool :=
  match s with
  | EmptyString => true
  | String c s' => is_white_space c && blank s'
  end.

Definition first_char (s : string) : option ascii :=
  match s with
  | EmptyString => None
  | String c _ => Some c
  end.

Fixpoint last_char (s : string) : option ascii :=
  match s with
  | EmptyString => None
  | String c EmptyString => Some c
  | String _ s' => last_char s'
  end.

(** No white space at either end. *)
Definition clean_ends (s : string) : Prop :=
  (forall c, first_char s = Some c -> is_white_space c = false) /\
  (forall c, last_char s = Some c -> is_white_space c = false).

(** The page an attempt leaves when it delivered [blob]. *)
Definition success_page (blob : Blob) (p : Page) : Page :=
  {| errorText_textContent := errorText_textContent p;
     loadingState_show := false;
     errorMessage_show := false;
     successMessage_show := true;
     audioPreview_show := true;
     generateBtn_disabled := false;
     audioPlayer_src := Some blob |}.

(** The page an attempt leaves when its [try] block threw [e]. *)
Definition failure_page (e : JsError) (p : Page) : Page :=
  {| errorText_textContent := message e;
     loadingState_show := false;
     errorMessage_show := true;
     successMessage_show := false;
     audioPreview_show := false;
     generateBtn_disabled := false;
     audioPlayer_src := audioPlayer_src p |}.

(** The page a rejected text, or a download without audio, leaves. *)
Definition rejection_page (msg : string) (p : Page) : Page :=
  {| errorText_textContent := msg;
     loadingState_show := false;
     errorMessage_show := true;
     successMessage_show := successMessage_show p;
     audioPreview_show := audioPreview_show p;
     generateBtn_disabled := false;
     audioPlayer_src := audioPlayer_src p |}.

(** A request as the script sends them: a POST to the relay's path whose
    body carries a text of at least ten code units without white space
    at either end. *)
Definition sendable `{Host} (r : RelayRequest) : Prop :=
  request_url r = "/api/generate-speech" /\
  request_method r = "POST" /\
  request_headers r = [("Content-Type", "application/json")] /\
  exists text voice speed,
    request_body r = JObj [("text", JStr text); ("voice", JStr voice);
                           ("speed", JNum (parseFloat speed))] /\
    (10 <= String.length text)%nat /\ clean_ends text.

(** The three worlds an attempt can leave: the text was rejected, an
    artifact was delivered, the [try] block threw [e]. *)
Definition rejected_world (msg : string) (w : World) : World :=
  {| page := rejection_page msg (page w);
     currentAudioBlob := currentAudioBlob w;
     requests := requests w;
     downloads := downloads w;
     console := console w |}.

Definition delivered_world `{Host} (form : Form) (blob : Blob) (w : World)
  : World :=
  {| page := success_page blob (page w);
     currentAudioBlob := Some blob;
     requests := requests w ++ [request_of form];
     downloads := downloads w;
     console := console w |}.

Definition failed_world `{Host} (form : Form) (e : JsError) (w : World)
  : World :=
  {| page := failure_page e (page w);
     currentAudioBlob := currentAudioBlob w;
     requests := requests w ++ [request_of form];
     downloads := downloads w;
     console := console w ++ [e] |}.

(** The error a failed attempt reports, read off the relay's answer:
    the thrown network error, the error of reading the body, or the
    [Error] made of the answer's [error] field or of the fallback. *)
Definition reported_error `{Host} (relay : RelayRequest -> Exc RelayResponse)
  (form : Form) : option JsError :=
  match relay (request_of form) with
  | Throw e => Some e
  | Ok r =>
      if response_ok r then
        match response_blob r with
        | Ok _ => None
        | Throw e => Some e
        end
      else
        match response_json r with
        | Throw e => Some e
        | Ok errorData =>
            match get errorData "error" with
            | Throw e => Some e
            | Ok error =>
                Some (new_Error
                        (or_else error (JStr "Failed to generate audio")))
            end
        end
  end.

(** The number of clicks on the generate button. *)
Fixpoint generate_clicks (es : list Event) : nat :=
  match es with
  | [] => 0
  | Generate _ _ :: es' => S (generate_clicks es')
  | Download _ :: es' => generate_clicks es'
  end.

End ClientShape.

(** * Properties *)

(** ** Base64: decoding undoes encoding *)

Section Base64Facts.

Import Base64.
#[local] Open Scope N_scope.

Lemma all_below_spec k P :
  all_below k P = true -> forall n, n < N.of_nat k -> P n = true.
Proof.
  unfold all_below. rewrite forallb_forall. intros Hall n Hn.
  apply Hall. apply in_map_iff. exists (N.to_nat n). split.
  - apply N2Nat.id.
  - apply in_seq. lia.
Qed.

Lemma all_bytes (P : N -> bool) :
  all_below 256 P = true -> forall x : byte, P (Byte.to_N x) = true.
Proof.
  intros Hall x. apply (all_below_spec 256 P Hall).
  pose proof (Byte.to_N_bounded x). lia.
Qed.

Lemma all_byte_pairs (P : N -> N -> bool) :
  all_below 256 (fun a => all_below 256 (P a)) = true ->
  forall x y : byte, P (Byte.to_N x) (Byte.to_N y) = true.
Proof.
  intros Hall x y.
  apply (all_bytes (P (Byte.to_N x))).
  apply (all_bytes (fun a => all_below 256 (P a)) Hall x).
Qed.

(** Every character of the alphabet is read back as its index, and none
    of them is the padding character. *)
Lemma unbase64_b64_char n :
  n < 64 ->
  unbase64 (b64_char n) = Some n /\ Ascii.eqb (b64_char n) pad = false.
Proof.
  intros Hn.
  assert (Hall : all_below 64 (fun n =>
            match unbase64 (b64_char n) with
            | Some m => N.eqb m n
            | None => false
            end && negb (Ascii.eqb (b64_char n) pad)) = true)
    by (vm_compute; reflexivity).
  apply all_below_spec with (n := n) in Hall; [| exact Hn].
  apply andb_prop in Hall as [Hval Hpad].
  destruct (unbase64 (b64_char n)) as [m |]; [| discriminate].
  apply N.eqb_eq in Hval. subst m.
  apply negb_true_iff in Hpad. auto.
Qed.

Lemma sextets_b64_char n s :
  n < 64 -> sextets (String (b64_char n) s) = n :: sextets s.
Proof.
  intros Hn. destruct (unbase64_b64_char n Hn) as [Hval Hpad].
  simpl. rewrite Hpad, Hval. reflexivity.
Qed.

Lemma sextets_pad s : sextets (String pad s) = [].
Proof. reflexivity. Qed.

(** The four 6-bit values of a group fit in six bits. *)
Lemma sextet_bounds (x y : byte) :
  sextet0 (Byte.to_N x) < 64 /\
  sextet1 (Byte.to_N x) (Byte.to_N y) < 64 /\
  sextet2 (Byte.to_N x) (Byte.to_N y) < 64 /\
  sextet3 (Byte.to_N x) < 64.
Proof.
  assert (Hall : all_below 256 (fun a => all_below 256 (fun b =>
            (sextet0 a <? 64) && (sextet1 a b <? 64)
            && (sextet2 a b <? 64) && (sextet3 a <? 64))) = true)
    by (vm_compute; reflexivity).
  pose proof (all_byte_pairs _ Hall x y) as Hxy. simpl in Hxy.
  repeat (apply andb_prop in Hxy as [Hxy ?]).
  repeat split; apply N.ltb_lt; assumption.
Qed.

(** The first byte of a group comes back from its first two values. *)
Lemma first_byte (x y : byte) :
  to_byte (N.lor (N.shiftl (sextet0 (Byte.to_N x)) 2)
                 (N.shiftr (sextet1 (Byte.to_N x) (Byte.to_N y)) 4)) = x.
Proof.
  assert (Hall : all_below 256 (fun a => all_below 256 (fun b =>
            N.land (N.lor (N.shiftl (sextet0 a) 2)
                          (N.shiftr (sextet1 a b) 4)) 255 =? a)) = true)
    by (vm_compute; reflexivity).
  pose proof (all_byte_pairs _ Hall x y) as Hxy. simpl in Hxy.
  apply N.eqb_eq in Hxy. unfold to_byte. rewrite Hxy, Byte.of_to_N.
  reflexivity.
Qed.

(** The second byte comes back from the second and third values, whatever
    the neighbouring bytes are. *)
Lemma second_byte (x y z : byte) :
  to_byte (N.lor
             (N.shiftl (N.land (sextet1 (Byte.to_N x) (Byte.to_N y)) 15) 4)
             (N.shiftr (sextet2 (Byte.to_N y) (Byte.to_N z)) 2)) = y.
Proof.
  assert (Hhi : all_below 256 (fun a => all_below 256 (fun b =>
            N.land (sextet1 a b) 15 =? N.shiftr b 4)) = true)
    by (vm_compute; reflexivity).
  assert (Hlo : all_below 256 (fun b => all_below 256 (fun c =>
            N.shiftr (sextet2 b c) 2 =? N.land b 15)) = true)
    by (vm_compute; reflexivity).
  assert (Hb : all_below 256 (fun b =>
            N.land (N.lor (N.shiftl (N.shiftr b 4) 4) (N.land b 15)) 255
            =? b) = true)
    by (vm_compute; reflexivity).
  pose proof (all_byte_pairs _ Hhi x y) as H1. simpl in H1.
  pose proof (all_byte_pairs _ Hlo y z) as H2. simpl in H2.
  pose proof (all_bytes _ Hb y) as H3. simpl in H3.
  apply N.eqb_eq in H1, H2, H3.
  unfold to_byte. rewrite H1, H2, H3, Byte.of_to_N. reflexivity.
Qed.

(** The third byte comes back from the third and fourth values. *)
Lemma third_byte (y z : byte) :
  to_byte (N.lor
             (N.shiftl (N.land (sextet2 (Byte.to_N y) (Byte.to_N z)) 3) 6)
             (sextet3 (Byte.to_N z))) = z.
Proof.
  assert (Hall : all_below 256 (fun b => all_below 256 (fun c =>
            N.land (N.lor (N.shiftl (N.land (sextet2 b c) 3) 6)
                          (sextet3 c)) 255 =? c)) = true)
    by (vm_compute; reflexivity).
  pose proof (all_byte_pairs _ Hall y z) as Hyz. simpl in Hyz.
  apply N.eqb_eq in Hyz. unfold to_byte. rewrite Hyz, Byte.of_to_N.
  reflexivity.
Qed.

(** Lists by groups of three. *)
Lemma list_by_three {A} (P : list A -> Prop) :
  P [] -> (forall a, P [a]) -> (forall a b, P [a; b]) ->
  (forall a b c rest, P rest -> P (a :: b :: c :: rest)) ->
  forall l, P l.
Proof.
  intros H0 H1 H2 H3 l.
  enough (P l /\ (forall a, P (a :: l)) /\ (forall a b, P (a :: b :: l)))
    by tauto.
  induction l as [| x l (IH0 & IH1 & IH2)].
  - auto.
  - repeat split; auto.
Qed.

Lemma zero_byte : Byte.to_N x00 = 0.
Proof. reflexivity. Qed.

(** Encoding then decoding gives the bytes back. *)
Lemma decode_encode (bs : list byte) : decode (encode bs) = bs.
Proof.
  unfold decode.
  induction bs as [| a | a b | a b c rest IH] using list_by_three.
  - reflexivity.
  - destruct (sextet_bounds a x00) as (B0 & B1 & _ & _).
    rewrite zero_byte in B1.
    cbn [encode]. rewrite !sextets_b64_char, sextets_pad by assumption.
    cbn [bytes_of_sextets]. rewrite <- zero_byte, first_byte. reflexivity.
  - destruct (sextet_bounds a b) as (B0 & B1 & _ & _).
    destruct (sextet_bounds b x00) as (_ & _ & B2 & _).
    rewrite zero_byte in B2.
    cbn [encode]. rewrite !sextets_b64_char, sextets_pad by assumption.
    cbn [bytes_of_sextets]. rewrite first_byte.
    rewrite <- zero_byte, second_byte. reflexivity.
  - destruct (sextet_bounds a b) as (B0 & B1 & _ & _).
    destruct (sextet_bounds b c) as (_ & _ & B2 & _).
    destruct (sextet_bounds c c) as (_ & _ & _ & B3).
    cbn [encode]. rewrite !sextets_b64_char by assumption.
    cbn [bytes_of_sextets].
    rewrite first_byte, second_byte, third_byte, IH. reflexivity.
Qed.

(** The example of the source's own notes (line 443): the eleven bytes of
    "Hello World". *)
Example encode_hello_world :
  encode [x48; x65; x6c; x6c; x6f; x20; x57; x6f; x72; x6c; x64]
  = "SGVsbG8gV29ybGQ=".
Proof. reflexivity. Qed.

Example decode_hello_world :
  decode "SGVsbG8gV29ybGQ="
  = [x48; x65; x6c; x6c; x6f; x20; x57; x6f; x72; x6c; x64].
Proof. reflexivity. Qed.

(** The decoder is forgiving: a line break inside the text is skipped,
    missing padding is tolerated, and the URL-safe alphabet is read. *)
Example decode_forgiving :
  decode (String "S" (String "G" (String "010" "VsbG8")))
  = [x48; x65; x6c; x6c; x6f]
  /\ decode "SGVsbG8" = [x48; x65; x6c; x6c; x6f]
  /\ decode "-_8=" = decode "+/8=".
Proof. repeat split. Qed.

End Base64Facts.

(** ** Splitting and joining *)

Section StringFacts.

Variable sep : ascii.

Lemma split_not_nil s : split sep s <> [].
Proof.
  destruct s as [| c s']; cbn; [discriminate |].
  destruct (Ascii.eqb c sep); [discriminate |].
  destruct (split sep s'); discriminate.
Qed.

(** Joining the pieces with the separator gives the string back. *)
Lemma join_split s : join (String sep "") (split sep s) = s.
Proof.
  induction s as [| c s' IH]; [reflexivity |].
  cbn [split]. pose proof (split_not_nil s') as Hne.
  destruct (Ascii.eqb_spec c sep) as [-> | Hc].
  - destruct (split sep s') as [| h t]; [congruence |].
    change (join (String sep "") ("" :: h :: t))
      with (String sep (join (String sep "") (h :: t))).
    rewrite IH. reflexivity.
  - destruct (split sep s') as [| h t]; [congruence |].
    rewrite <- IH. destruct t; reflexivity.
Qed.

(** A string without the separator is one piece. *)
Lemma split_free s : free_of sep s = true -> split sep s = [s].
Proof.
  induction s as [| c s' IH]; [reflexivity |].
  cbn [free_of split]. intros Hfree.
  apply andb_prop in Hfree as [Hc Hs'].
  apply negb_true_iff in Hc. rewrite Hc, (IH Hs'). reflexivity.
Qed.

(** A piece without the separator, followed by the separator, is split
    off. *)
Lemma split_app a s :
  free_of sep a = true ->
  split sep (a ++ String sep s) = a :: split sep s.
Proof.
  induction a as [| c a' IH]; intros Hfree.
  - change (split sep (String sep s) = "" :: split sep s).
    cbn [split]. rewrite Ascii.eqb_refl. reflexivity.
  - change (split sep (String c (a' ++ String sep s))
            = String c a' :: split sep s).
    cbn [free_of] in Hfree. apply andb_prop in Hfree as [Hc Ha'].
    apply negb_true_iff in Hc.
    cbn [split]. rewrite Hc, (IH Ha'). reflexivity.
Qed.

End StringFacts.

Example trim_hello : trim (String "009" "  Hello world  ") = "Hello world".
Proof. reflexivity. Qed.

Example trim_blank : trim "    " = "".
Proof. reflexivity. Qed.

(** The example of line 325: "en-US-Neural2-A" gives "en-US". *)
Example language_code_en_US :
  join "-" (slice0 2 (split "-" "en-US-Neural2-A")) = "en-US".
Proof. reflexivity. Qed.

(** The language code of a voice: its first two pieces when it has three
    or more, and the whole voice when it has at most two. *)
Lemma language_code_of_long_voice a b rest :
  free_of "-" a = true -> free_of "-" b = true ->
  join "-" (slice0 2 (split "-" (a ++ "-" ++ b ++ "-" ++ rest)))
  = a ++ "-" ++ b.
Proof.
  intros Ha Hb.
  change ("-" ++ b ++ "-" ++ rest) with (String "-" (b ++ String "-" rest)).
  rewrite (split_app "-" a _ Ha), (split_app "-" b _ Hb).
  reflexivity.
Qed.

Lemma language_code_of_short_voice a b :
  free_of "-" a = true -> free_of "-" b = true ->
  join "-" (slice0 2 (split "-" a)) = a /\
  join "-" (slice0 2 (split "-" (a ++ "-" ++ b))) = a ++ "-" ++ b.
Proof.
  intros Ha Hb. split.
  - rewrite (split_free "-" a Ha). reflexivity.
  - change ("-" ++ b) with (String "-" b).
    rewrite (split_app "-" a _ Ha), (split_free "-" b Hb). reflexivity.
Qed.

(** ** The relay *)

Section RelayFacts.

Import Relay RelaySpec.
#[local] Open Scope Z_scope.

Context `{Host}.
Variable GOOGLE_CLOUD_API_KEY : option string.
Variable upstream : FetchCall -> Exc UpstreamResponse.

Ltac run :=
  cbv beta iota zeta delta
    [invoke handler call_provider on_error fetch bind ret lift throw
     try_catch modify on_res res_setHeader res_status res_end res_json
     res_send console_error fresh_world];
  cbn [res fetched console headers statusCode sent fst snd].

Lemma destructure_field req k :
  has_body req -> destructure (body req) k = Ok (field k req).
Proof.
  unfold has_body, destructure, field, get_opt.
  destruct (body req); intros Hb; try discriminate Hb; reflexivity.
Qed.

(** A body with a truthy field is a body. *)
Lemma present_has_body k req : present k req -> has_body req.
Proof.
  unfold present, has_body, field, get_opt.
  destruct (is_nullish (body req)); [discriminate | reflexivity].
Qed.

(** A request that passes every check of lines 273-314 ends in the
    guarded call of the provider, with the payload of lines 320-334. *)
Lemma handler_valid req apiKey voice w :
  method req = "POST" ->
  has_body req ->
  truthy (field "text" req) = true ->
  field "voice" req = JStr voice ->
  voice <> "" ->
  GOOGLE_CLOUD_API_KEY = Some apiKey ->
  apiKey <> "" ->
  handler GOOGLE_CLOUD_API_KEY upstream req w
  = try_catch
      (call_provider upstream apiKey
         (upstream_payload (field "text" req) voice (field "speed" req)))
      on_error (with_cors w).
Proof.
  intros Hm Hb Ht Hv Hne Hk Hkne.
  unfold handler. run. rewrite Hm. cbn [String.eqb Ascii.eqb Bool.eqb negb].
  rewrite !destructure_field by assumption. rewrite Ht, Hv, Hk.
  destruct voice as [| c voice']; [congruence |].
  destruct apiKey as [| k apiKey']; [congruence |].
  reflexivity.
Qed.

(** What the guarded call leaves behind, path by path. *)

Lemma provider_audio apiKey payload r data s w :
  upstream (provider_call apiKey payload) = Ok r ->
  response_ok r = true ->
  response_json r = Ok data ->
  get data "audioContent" = Ok (JStr s) ->
  s <> "" ->
  try_catch (call_provider upstream apiKey payload) on_error w
  = (Ok tt,
     {| res :=
          {| headers :=
               <["Content-Length" := HNum (length (Base64.decode s))]>
                 (<["Content-Type" := HStr "audio/mpeg"]> (headers (res w)));
             statusCode := 200;
             sent := Some (BytesBody (Base64.decode s)) |};
        fetched := fetched w ++ [provider_call apiKey payload];
        console := console w |}).
Proof.
  intros Hup Hok Hjson Hget Hne. run.
  fold (provider_call apiKey payload). rewrite Hup, Hok, Hjson, Hget.
  destruct s as [| c s']; [congruence |]. reflexivity.
Qed.


Lemma provider_error apiKey payload r errorData error w :
  upstream (provider_call apiKey payload) = Ok r ->
  response_ok r = false ->
  response_json r = Ok errorData ->
  get errorData "error" = Ok error ->
  try_catch (call_provider upstream apiKey payload) on_error w
  = (Ok tt,
     {| res :=
          {| headers :=
               <["Content-Type" := HStr "application/json; charset=utf-8"]>
                 (headers (res w));
             statusCode := response_status r;
             sent := Some (JsonBody (error_body
                       (or_else (get_opt error "message")
                                (JStr "Failed to generate speech")))) |};
        fetched := fetched w ++ [provider_call apiKey payload];
        console := console w ++ [LogValue "Google API Error:" errorData] |}).
Proof.
  intros Hup Hok Hjson Hget. run.
  fold (provider_call apiKey payload). rewrite Hup, Hok, Hjson, Hget.
  reflexivity.
Qed.

Lemma provider_caught apiKey payload e w w1 :
  call_provider upstream apiKey payload w = (Throw e, w1) ->
  try_catch (call_provider upstream apiKey payload) on_error w
  = (Ok tt,
     {| res :=
          {| headers :=
               <["Content-Type" := HStr "application/json; charset=utf-8"]>
                 (headers (res w1));
             statusCode := 500;
             sent := Some (JsonBody (error_body
                       (JStr ("Internal server error: " ++ message e)))) |};
        fetched := fetched w1;
        console := console w1 ++ [LogError "Error:" e] |}).
Proof.
  intros Hthrow. unfold try_catch. rewrite Hthrow. reflexivity.
Qed.

(** The body of the [try] block calls the provider exactly once, and when
    it returns it has sent a response. *)
Lemma call_provider_once apiKey payload w :
  let '(out, w1) := call_provider upstream apiKey payload w in
  fetched w1 = (fetched w ++ [provider_call apiKey payload])%list /\
  (out = Ok tt -> sent (res w1) <> None).
Proof.
  run. fold (provider_call apiKey payload).
  destruct (upstream (provider_call apiKey payload)) as [r | e];
    [| split; [reflexivity | discriminate]].
  destruct (response_ok r); cbn [negb].
  - destruct (response_json r) as [data | e];
      [| split; [reflexivity | discriminate]].
    destruct (get data "audioContent") as [audioContent | e];
      [| split; [reflexivity | discriminate]].
    destruct (truthy audioContent); cbn [negb].
    + destruct (Buffer_from audioContent) as [audioBuffer | e];
        split; try reflexivity; discriminate.
    + split; [reflexivity | discriminate].
  - destruct (response_json r) as [errorData | e];
      [| split; [reflexivity | discriminate]].
    cbn [res fetched console headers statusCode sent fst snd].
    destruct (get errorData "error") as [error | e];
      split; try reflexivity; discriminate.
Qed.

(** The [try]/[catch] statement never ends by an exception: it returns,
    having called the provider once and sent a response. *)
Lemma guarded_call_returns apiKey payload w :
  exists w',
    try_catch (call_provider upstream apiKey payload) on_error w = (Ok tt, w')
    /\ fetched w' = (fetched w ++ [provider_call apiKey payload])%list
    /\ sent (res w') <> None.
Proof.
  pose proof (call_provider_once apiKey payload w) as Honce.
  destruct (call_provider upstream apiKey payload w) as [out w1] eqn:Hrun.
  destruct Honce as [Hfetched Hsent].
  destruct out as [[] | e].
  - exists w1. unfold try_catch. rewrite Hrun. auto.
  - eexists. split; [apply (provider_caught _ _ _ _ _ Hrun) |].
    cbn [res fetched sent]. split; [exact Hfetched | discriminate].
Qed.

(** Whatever the request, the handler either ends without calling the
    provider, or it is the guarded call on the world with the CORS
    headers. *)
Lemma handler_paths req w :
  (exists out w',
      handler GOOGLE_CLOUD_API_KEY upstream req w = (out, w')
      /\ fetched w' = fetched w)
  \/ (exists apiKey payload,
        handler GOOGLE_CLOUD_API_KEY upstream req w
        = try_catch (call_provider upstream apiKey payload) on_error
            (with_cors w)).
Proof.
  unfold handler. run.
  destruct (String.eqb (method req) "OPTIONS"); [left; eauto |].
  destruct (String.eqb (method req) "POST"); cbn [negb]; [| left; eauto].
  destruct (destructure (body req) "text") as [text | e]; [| left; eauto].
  destruct (destructure (body req) "voice") as [voice | e]; [| left; eauto].
  destruct (destructure (body req) "speed") as [speed | e]; [| left; eauto].
  destruct (negb (truthy text) || negb (truthy voice)); [left; eauto |].
  destruct GOOGLE_CLOUD_API_KEY as [[| k apiKey] |];
    [left; eauto | | left; eauto].
  destruct (googleRequestBody text voice speed) as [payload | e];
    [| left; eauto].
  right. exists (String k apiKey), payload. reflexivity.
Qed.

(** An invocation that called the provider called it once, through the
    guarded call. *)
Lemma contacted_guarded req c :
  contacted GOOGLE_CLOUD_API_KEY upstream req c ->
  exists apiKey payload,
    c = provider_call apiKey payload /\
    invoke GOOGLE_CLOUD_API_KEY upstream req
    = try_catch (call_provider upstream apiKey payload) on_error
        (with_cors fresh_world).
Proof.
  unfold contacted, invoke. intros Hin.
  destruct (handler_paths req fresh_world)
    as [(out & w' & Hrun & Hfetched) | (apiKey & payload & Hrun)].
  - rewrite Hrun in Hin. cbn [snd] in Hin. rewrite Hfetched in Hin.
    destruct Hin.
  - exists apiKey, payload. split; [| exact Hrun].
    destruct (guarded_call_returns apiKey payload (with_cors fresh_world))
      as (w' & Hret & Hfetched & _).
    rewrite Hrun, Hret in Hin. cbn [snd] in Hin. rewrite Hfetched in Hin.
    cbn in Hin. destruct Hin as [Heq | []]. symmetry. exact Heq.
Qed.

Lemma get_not_nullish v k :
  is_nullish v = false -> get v k = Ok (get_opt v k).
Proof.
  unfold get_opt. destruct v; intros Hv; try discriminate Hv; reflexivity.
Qed.

Ltac on_guarded Hc :=
  let apiKey := fresh "apiKey" in
  let payload := fresh "payload" in
  let Hrun := fresh "Hrun" in
  destruct (contacted_guarded _ _ Hc) as (apiKey & payload & -> & Hrun);
  rewrite Hrun.

(** C1, amended. In every invocation in which the provider answers with a
    success status and a payload whose audio field is present and not
    empty (a non-empty base64 string), the relay decodes the string and
    answers 200 with Content-Type audio/mpeg, Content-Length the number of
    decoded bytes, and the decoded bytes as the body. *)
Theorem relay_streams_decoded_audio req c r data s :
  contacted GOOGLE_CLOUD_API_KEY upstream req c ->
  upstream c = Ok r ->
  response_ok r = true ->
  response_json r = Ok data ->
  get data "audioContent" = Ok (JStr s) ->
  s <> "" ->
  let '(out, w) := invoke GOOGLE_CLOUD_API_KEY upstream req in
  out = Ok tt /\
  statusCode (res w) = 200 /\
  headers (res w) !! "Content-Type" = Some (HStr "audio/mpeg") /\
  headers (res w) !! "Content-Length"
    = Some (HNum (length (Base64.decode s))) /\
  sent (res w) = Some (BytesBody (Base64.decode s)).
Proof.
  intros Hc Hup Hok Hjson Hget Hne. on_guarded Hc.
  rewrite (provider_audio _ _ _ _ _ _ Hup Hok Hjson Hget Hne).
  cbn [res headers statusCode sent].
  rewrite lookup_insert_eq, lookup_insert_ne, lookup_insert_eq
    by discriminate.
  repeat split.
Qed.

(** C2, amended. In every invocation in which the provider answers with a
    status S outside 200-299 and a JSON body that parses (to anything but
    [null]), the relay answers with the same status S; the body is
    [{ error: M }] when the parsed body carries a nested error.message M
    that is truthy (a non-empty string), and
    [{ error: "Failed to generate speech" }] when it lacks the field or
    the field is falsy. *)
Theorem relay_forwards_provider_error req c r errorData :
  contacted GOOGLE_CLOUD_API_KEY upstream req c ->
  upstream c = Ok r ->
  response_ok r = false ->
  response_json r = Ok errorData ->
  is_nullish errorData = false ->
  let '(out, w) := invoke GOOGLE_CLOUD_API_KEY upstream req in
  out = Ok tt /\
  (truthy (nested_message errorData) = true ->
   answered_error w (response_status r) (nested_message errorData)) /\
  (truthy (nested_message errorData) = false ->
   answered_error w (response_status r) (JStr "Failed to generate speech")).
Proof.
  intros Hc Hup Hok Hjson Hnn. on_guarded Hc.
  rewrite (provider_error _ _ _ _ _ _ Hup Hok Hjson
             (get_not_nullish _ _ Hnn)).
  fold (nested_message errorData).
  unfold answered_error, or_else. cbn [res statusCode sent].
  split; [reflexivity |].
  split; intros ->; split; reflexivity.
Qed.

(** An invocation that called the provider had passed every check. *)
Lemma contacted_valid req c :
  contacted GOOGLE_CLOUD_API_KEY upstream req c ->
  method req = "POST" /\ has_body req /\ present "text" req /\
  exists voice apiKey,
    field "voice" req = JStr voice /\ voice <> "" /\
    GOOGLE_CLOUD_API_KEY = Some apiKey /\ apiKey <> "".
Proof.
  unfold contacted, invoke, handler, has_body, present. run.
  destruct (String.eqb (method req) "OPTIONS"); [intros [] |].
  destruct (String.eqb (method req) "POST") eqn:Hpost; cbn [negb];
    [| intros []].
  apply String.eqb_eq in Hpost.
  destruct (is_nullish (body req)) eqn:Hb.
  { unfold destructure. rewrite Hb. intros []. }
  rewrite !destructure_field by exact Hb.
  destruct (truthy (field "text" req)) eqn:Ht; cbn [negb orb];
    [| intros []].
  destruct (truthy (field "voice" req)) eqn:Hv; cbn [negb]; [| intros []].
  destruct GOOGLE_CLOUD_API_KEY as [[| k apiKey] |];
    [intros [] | | intros []].
  destruct (field "voice" req) as [| | b | x | voice | items | fields];
    try (intros []).
  intros _. repeat split; try assumption.
  exists voice, (String k apiKey). repeat split; try discriminate.
  intros ->. discriminate Hv.
Qed.

(** C4. The payload built from the body's text, voice and speed is the
    one of section 6: the text as input, the language code the first two
    hyphen-separated segments of voice joined by a hyphen, the voice as
    name, MP3, the speed as speaking rate if it is truthy and 1.0
    otherwise, pitch 0 and gain 0. Every valid invocation (POST, text and
    voice present so that line 297 lets them pass, credential available)
    sends exactly that payload to the provider, once; and an invocation
    sends no other payload. *)
Theorem relay_builds_provider_payload req :
  (forall text voice speed,
      googleRequestBody text (JStr voice) speed
      = Ok (JObj
          [("input", JObj [("text", text)]);
           ("voice", JObj
              [("languageCode",
                JStr (join "-" (slice0 2 (split "-" voice))));
               ("name", JStr voice)]);
           ("audioConfig", JObj
              [("audioEncoding", JStr "MP3");
               ("speakingRate",
                if truthy speed then speed else JNum 1%float);
               ("pitch", JNum 0%float);
               ("volumeGainDb", JNum 0%float)])]))
  /\ (forall apiKey voice,
        method req = "POST" ->
        present "text" req ->
        field "voice" req = JStr voice ->
        voice <> "" ->
        GOOGLE_CLOUD_API_KEY = Some apiKey ->
        apiKey <> "" ->
        fetched (snd (invoke GOOGLE_CLOUD_API_KEY upstream req))
        = [provider_call apiKey
             (upstream_payload (field "text" req) voice
                (field "speed" req))])
  /\ (forall c,
        contacted GOOGLE_CLOUD_API_KEY upstream req c ->
        exists apiKey voice,
          field "voice" req = JStr voice /\
          c = provider_call apiKey
                (upstream_payload (field "text" req) voice
                   (field "speed" req))).
Proof.
  assert (Hsent : forall apiKey voice,
             method req = "POST" -> present "text" req ->
             field "voice" req = JStr voice -> voice <> "" ->
             GOOGLE_CLOUD_API_KEY = Some apiKey -> apiKey <> "" ->
             fetched (snd (invoke GOOGLE_CLOUD_API_KEY upstream req))
             = [provider_call apiKey
                  (upstream_payload (field "text" req) voice
                     (field "speed" req))]).
  { intros apiKey voice Hm Ht Hv Hne Hk Hkne. unfold invoke.
    rewrite (handler_valid _ _ _ _ Hm (present_has_body _ _ Ht) Ht Hv Hne
               Hk Hkne).
    match goal with
    | |- context [try_catch (call_provider _ ?k ?p) _ ?w] =>
        destruct (guarded_call_returns k p w) as (w' & -> & Hf & _)
    end.
    cbn [snd]. rewrite Hf. reflexivity. }
  split; [reflexivity |]. split; [exact Hsent |].
  intros c Hc.
  destruct (contacted_valid _ _ Hc)
    as (Hm & Hb & Ht & voice & apiKey & Hv & Hne & Hk & Hkne).
  exists apiKey, voice. split; [exact Hv |].
  unfold contacted in Hc.
  rewrite (Hsent apiKey voice Hm Ht Hv Hne Hk Hkne) in Hc.
  destruct Hc as [<- | []]. reflexivity.
Qed.

(** Every POST invocation that has a body (any value but [undefined] and
    [null]) in which text or voice is missing, as line 297 tests it, is
    answered with status 400 and the body
    [{ error: "Missing required fields: text and voice" }], and the
    provider is not called. *)
Theorem relay_rejects_missing_fields req :
  method req = "POST" ->
  has_body req ->
  missing "text" req \/ missing "voice" req ->
  let '(out, w) := invoke GOOGLE_CLOUD_API_KEY upstream req in
  out = Ok tt /\
  answered_error w 400 (JStr "Missing required fields: text and voice") /\
  fetched w = [].
Proof.
  unfold missing. intros Hm Hb Hmiss. unfold invoke, handler. run.
  rewrite Hm. cbn [String.eqb Ascii.eqb Bool.eqb negb].
  rewrite !destructure_field by assumption.
  assert (negb (truthy (field "text" req))
          || negb (truthy (field "voice" req)) = true) as ->.
  { destruct Hmiss as [-> | ->]; [reflexivity | apply orb_true_r]. }
  repeat split.
Qed.

(** C5. The handler does not do what the claim says on every POST whose
    body is missing text or voice: when the request has no body at all
    ([req.body] is [undefined], or [null]), both fields are missing, yet
    the destructuring of line 292 throws a TypeError before the check of
    line 297 is reached. No 400 is sent, nothing is sent; the exception
    leaves the handler. *)
Theorem relay_throws_without_body req :
  method req = "POST" ->
  is_nullish (body req) = true ->
  let '(out, w) := invoke GOOGLE_CLOUD_API_KEY upstream req in
  missing "text" req /\ missing "voice" req /\
  out = Throw (mkError "TypeError"
                 ("Cannot destructure property 'text' of 'req.body' as it is "
                  ++ type_name (body req) ++ "."))
  /\ sent (res w) = None
  /\ fetched w = []
  /\ ~ answered_error w 400 (JStr "Missing required fields: text and voice").
Proof.
  intros Hm Hb. unfold missing, field, get_opt, invoke, handler. run.
  rewrite Hm. cbn [String.eqb Ascii.eqb Bool.eqb negb].
  unfold destructure. rewrite Hb.
  repeat split. intros [Hstatus _]. discriminate Hstatus.
Qed.

(** C6, amended. For every POST invocation with both fields present and
    truthy (not empty), when the secret credential is absent from the
    environment the relay answers with status 500 and the body
    [{ error: "Server configuration error: API key not found" }], and the
    provider is not called. *)
Theorem relay_needs_api_key req :
  method req = "POST" ->
  present "text" req ->
  present "voice" req ->
  GOOGLE_CLOUD_API_KEY = None ->
  let '(out, w) := invoke GOOGLE_CLOUD_API_KEY upstream req in
  out = Ok tt /\
  answered_error w 500
    (JStr "Server configuration error: API key not found") /\
  fetched w = [].
Proof.
  intros Hm Ht Hv Hk. pose proof (present_has_body _ _ Ht) as Hb.
  unfold present in Ht, Hv. unfold invoke, handler. run.
  rewrite Hm. cbn [String.eqb Ascii.eqb Bool.eqb negb].
  rewrite !destructure_field by assumption. rewrite Ht, Hv, Hk.
  repeat split.
Qed.


(** C8. In every invocation that reaches the provider call, no exception
    of the call chain leaves the handler: the handler returns and a
    response was sent; and when the [try] block threw [e] (the network
    failed, the response body did not parse, or the audio did not decode),
    that response has status 500 and the body
    [{ error: "Internal server error: " + e.message }]. *)
Theorem relay_catches_provider_failures req c :
  contacted GOOGLE_CLOUD_API_KEY upstream req c ->
  let '(out, w) := invoke GOOGLE_CLOUD_API_KEY upstream req in
  out = Ok tt /\
  sent (res w) <> None /\
  (exists apiKey payload,
      c = provider_call apiKey payload /\
      forall e w1,
        call_provider upstream apiKey payload (with_cors fresh_world)
        = (Throw e, w1) ->
        answered_error w 500 (JStr ("Internal server error: " ++ message e)))
  /\ (forall e,
        upstream c = Throw e ->
        answered_error w 500 (JStr ("Internal server error: " ++ message e)))
  /\ (forall r e,
        upstream c = Ok r -> response_json r = Throw e ->
        answered_error w 500 (JStr ("Internal server error: " ++ message e)))
  /\ (forall r data audioContent e,
        upstream c = Ok r -> response_ok r = true ->
        response_json r = Ok data ->
        get data "audioContent" = Ok audioContent ->
        truthy audioContent = true ->
        Buffer_from audioContent = Throw e ->
        answered_error w 500 (JStr ("Internal server error: " ++ message e))).
Proof.
  intros Hc.
  destruct (contacted_guarded _ _ Hc) as (apiKey & payload & -> & Hrun).
  rewrite Hrun.
  destruct (guarded_call_returns apiKey payload (with_cors fresh_world))
    as (w' & Hret & _ & Hsent).
  rewrite Hret. split; [reflexivity |]. split; [exact Hsent |].
  assert (Hcaught : forall e w1,
             call_provider upstream apiKey payload (with_cors fresh_world)
             = (Throw e, w1) ->
             answered_error w' 500
               (JStr ("Internal server error: " ++ message e))).
  { intros e w1 Hthrow.
    rewrite (provider_caught _ _ _ _ _ Hthrow) in Hret.
    injection Hret as <-. split; reflexivity. }
  split; [exists apiKey, payload; auto |].
  split; [| split].
  - intros e Hup. eapply Hcaught. run.
    fold (provider_call apiKey payload). rewrite Hup. reflexivity.
  - intros r e Hup Hjson. eapply Hcaught. run.
    fold (provider_call apiKey payload). rewrite Hup, Hjson.
    destruct (response_ok r); reflexivity.
  - intros r data audioContent e Hup Hok Hjson Hget Htruthy Hbuf.
    eapply Hcaught. run.
    fold (provider_call apiKey payload).
    rewrite Hup, Hok, Hjson, Hget, Htruthy, Hbuf. reflexivity.
Qed.

End RelayFacts.

(** ** The transcoding step *)

Lemma encode_nonempty (bs : list byte) : bs <> [] -> Base64.encode bs <> "".
Proof.
  destruct bs as [| a [| b [| c rest]]]; [congruence | | |];
    intros _; discriminate.
Qed.

(** C9. Encoding any byte sequence B to base64 and decoding the result, as
    the relay does, gives B back. Consequently a relay that receives the
    base64 of a non-empty B sends exactly B with Content-Length the length
    of B, and two invocations that receive the same audio string send the
    same bytes and the same Content-Length. *)
Theorem transcoding_round_trip :
  (forall B : list byte, Base64.decode (Base64.encode B) = B)
  /\ (forall (host : Host) key upstream req c r data (B : list byte),
        RelaySpec.contacted key upstream req c ->
        upstream c = Ok r ->
        Relay.response_ok r = true ->
        Relay.response_json r = Ok data ->
        get data "audioContent" = Ok (JStr (Base64.encode B)) ->
        B <> [] ->
        let w := snd (Relay.invoke key upstream req) in
        Relay.sent (Relay.res w) = Some (Relay.BytesBody B) /\
        Relay.headers (Relay.res w) !! "Content-Length"
        = Some (Relay.HNum (length B)))
  /\ (forall (host1 host2 : Host) key1 key2 upstream1 upstream2 req1 req2
             c1 c2 r1 r2 data1 data2 s,
        RelaySpec.contacted (H := host1) key1 upstream1 req1 c1 ->
        RelaySpec.contacted (H := host2) key2 upstream2 req2 c2 ->
        upstream1 c1 = Ok r1 -> upstream2 c2 = Ok r2 ->
        Relay.response_ok r1 = true -> Relay.response_ok r2 = true ->
        Relay.response_json r1 = Ok data1 ->
        Relay.response_json r2 = Ok data2 ->
        get data1 "audioContent" = Ok (JStr s) ->
        get data2 "audioContent" = Ok (JStr s) ->
        s <> "" ->
        let w1 := snd (Relay.invoke (H := host1) key1 upstream1 req1) in
        let w2 := snd (Relay.invoke (H := host2) key2 upstream2 req2) in
        Relay.sent (Relay.res w1) = Relay.sent (Relay.res w2) /\
        Relay.headers (Relay.res w1) !! "Content-Length"
        = Relay.headers (Relay.res w2) !! "Content-Length").
Proof.
  split; [exact decode_encode |]. split.
  - intros host key upstream req c r data B Hc Hup Hok Hjson Hget HB.
    destruct (contacted_guarded _ _ _ _ Hc)
      as (apiKey & payload & -> & Hrun).
    cbv zeta. rewrite Hrun.
    rewrite (provider_audio _ _ _ _ _ _ _ Hup Hok Hjson Hget
               (encode_nonempty B HB)).
    cbn [snd Relay.res Relay.headers Relay.sent].
    rewrite lookup_insert_eq, decode_encode. split; reflexivity.
  - intros host1 host2 key1 key2 upstream1 upstream2 req1 req2 c1 c2 r1 r2
      data1 data2 s Hc1 Hc2 Hup1 Hup2 Hok1 Hok2 Hjson1 Hjson2 Hget1 Hget2 Hs.
    destruct (contacted_guarded _ _ _ _ Hc1)
      as (apiKey1 & payload1 & -> & Hrun1).
    destruct (contacted_guarded _ _ _ _ Hc2)
      as (apiKey2 & payload2 & -> & Hrun2).
    cbv zeta. rewrite Hrun1, Hrun2.
    rewrite (provider_audio _ _ _ _ _ _ _ Hup1 Hok1 Hjson1 Hget1 Hs).
    rewrite (provider_audio _ _ _ _ _ _ _ Hup2 Hok2 Hjson2 Hget2 Hs).
    cbn [snd Relay.res Relay.headers Relay.sent].
    rewrite !lookup_insert_eq. split; reflexivity.
Qed.

(** ** The relay on the scenarios of the spec *)

Section RelayScenarios.

Import Relay RelaySpec.
#[local] Open Scope Z_scope.

Ltac compute_contact := unfold contacted; vm_compute; left; reflexivity.

(** Scenario A: the provider answers with the base64 of "Hello". *)
Lemma relay_streams_decoded_audio_witness :
  let '(out, w) :=
    invoke (H := example_host) (Some "secret") (answering hello_response)
      hello_request in
  out = Ok tt /\
  statusCode (res w) = 200 /\
  headers (res w) !! "Content-Type" = Some (HStr "audio/mpeg") /\
  headers (res w) !! "Content-Length"
    = Some (HNum (length (Base64.decode "SGVsbG8="))) /\
  sent (res w) = Some (BytesBody (Base64.decode "SGVsbG8=")).
Proof.
  apply (relay_streams_decoded_audio (H := example_host) (Some "secret")
           (answering hello_response) hello_request hello_call
           hello_response (JObj [("audioContent", JStr "SGVsbG8=")])
           "SGVsbG8=");
    first [compute_contact | reflexivity | discriminate].
Defined.

(** Scenario E: 403 and "quota exceeded" come back as they are. *)
Lemma relay_forwards_provider_error_witness :
  let '(out, w) :=
    invoke (H := example_host) (Some "secret") (answering quota_response)
      hello_request in
  out = Ok tt /\
  (truthy (JStr "quota exceeded") = true ->
   answered_error w 403 (JStr "quota exceeded")) /\
  (truthy (JStr "quota exceeded") = false ->
   answered_error w 403 (JStr "Failed to generate speech")).
Proof.
  apply (relay_forwards_provider_error (H := example_host) (Some "secret")
           (answering quota_response) hello_request hello_call
           quota_response
           (JObj [("error", JObj [("message", JStr "quota exceeded")])]));
    first [compute_contact | reflexivity].
Defined.

(** Scenario A's request: the payload, and the one call. *)
Lemma relay_builds_provider_payload_witness :
  upstream_payload (JStr "Hello world, this is a test.")
    "en-US-Neural2-A" (JNum 1%float)
  = JObj
      [("input", JObj [("text", JStr "Hello world, this is a test.")]);
       ("voice", JObj [("languageCode", JStr "en-US");
                       ("name", JStr "en-US-Neural2-A")]);
       ("audioConfig", JObj [("audioEncoding", JStr "MP3");
                             ("speakingRate", JNum 1%float);
                             ("pitch", JNum 0%float);
                             ("volumeGainDb", JNum 0%float)])]
  /\ fetched (snd (invoke (H := example_host) (Some "secret")
                     (answering hello_response) hello_request))
     = [hello_call].
Proof.
  split; [reflexivity |].
  destruct (relay_builds_provider_payload (H := example_host)
              (Some "secret") (answering hello_response) hello_request)
    as (_ & Hsent & _).
  apply (Hsent "secret" "en-US-Neural2-A");
    first [reflexivity | discriminate].
Defined.

(** Scenario C: the body has no [voice]. *)
Lemma relay_rejects_missing_fields_witness :
  let '(out, w) :=
    invoke (H := example_host) (Some "secret") (answering hello_response)
      voiceless_request in
  out = Ok tt /\
  answered_error w 400 (JStr "Missing required fields: text and voice") /\
  fetched w = [].
Proof.
  apply (relay_rejects_missing_fields (H := example_host) (Some "secret")
           (answering hello_response) voiceless_request);
    first [reflexivity | right; reflexivity].
Defined.

(** A POST without a body: the handler throws and answers nothing. *)
Lemma relay_throws_without_body_witness :
  let '(out, w) :=
    invoke (H := example_host) (Some "secret") (answering hello_response)
      {| method := "POST"; body := JUndefined |} in
  missing "text" {| method := "POST"; body := JUndefined |} /\
  missing "voice" {| method := "POST"; body := JUndefined |} /\
  out = Throw (mkError "TypeError"
    "Cannot destructure property 'text' of 'req.body' as it is undefined.")
  /\ sent (res w) = None
  /\ fetched w = []
  /\ ~ answered_error w 400 (JStr "Missing required fields: text and voice").
Proof.
  apply (relay_throws_without_body (H := example_host) (Some "secret")
           (answering hello_response)
           {| method := "POST"; body := JUndefined |});
    reflexivity.
Defined.

(** Scenario D: no credential in the environment. *)
Lemma relay_needs_api_key_witness :
  let '(out, w) :=
    invoke (H := example_host) None (answering hello_response)
      hello_request in
  out = Ok tt /\
  answered_error w 500
    (JStr "Server configuration error: API key not found") /\
  fetched w = [].
Proof.
  apply (relay_needs_api_key (H := example_host) None
           (answering hello_response) hello_request);
    reflexivity.
Defined.


(** The network fails: 500 with the cause's message. *)
Lemma relay_catches_provider_failures_witness :
  let w := snd (invoke (H := example_host) (Some "secret") unreachable
                  hello_request) in
  fst (invoke (H := example_host) (Some "secret") unreachable hello_request)
  = Ok tt /\
  sent (res w) <> None /\
  answered_error w 500 (JStr "Internal server error: fetch failed").
Proof.
  pose proof (relay_catches_provider_failures (H := example_host)
                (Some "secret") unreachable hello_request hello_call)
    as Hcatch.
  destruct (invoke (H := example_host) (Some "secret") unreachable
              hello_request) as [out w] eqn:Hrun.
  destruct Hcatch as (Hout & Hsent & _ & Hnet & _).
  { unfold contacted. rewrite Hrun. vm_compute in Hrun.
    injection Hrun as _ <-. left. reflexivity. }
  cbn [fst snd]. split; [exact Hout |]. split; [exact Hsent |].
  apply (Hnet (mkError "TypeError" "fetch failed")). reflexivity.
Defined.

(** C1 as stated fails: the audio field is present, as the empty string,
    and the relay answers 500 with the no-audio error, not 200 with the
    (zero) decoded bytes. *)
Lemma empty_audio_is_refused :
  let upstream := answering empty_audio_response in
  let w := snd (invoke (H := example_host) (Some "secret") upstream
                  hello_request) in
  contacted (H := example_host) (Some "secret") upstream hello_request
    hello_call /\
  upstream hello_call = Ok empty_audio_response /\
  response_ok empty_audio_response = true /\
  response_json empty_audio_response
  = Ok (JObj [("audioContent", JStr "")]) /\
  get (JObj [("audioContent", JStr "")]) "audioContent" = Ok (JStr "") /\
  statusCode (res w) = 500 /\
  sent (res w)
  = Some (JsonBody
            (error_body (JStr "No audio content received from Google"))) /\
  ~ (statusCode (res w) = 200 /\
     sent (res w) = Some (BytesBody (Base64.decode ""))).
Proof.
  cbv zeta. repeat split; try reflexivity.
  - unfold contacted. vm_compute. left. reflexivity.
  - intros [Hstatus _]. vm_compute in Hstatus. discriminate Hstatus.
Qed.

(** C2 as stated fails: the parsed body carries a nested error.message,
    the empty string, and the relay answers with the fallback message,
    not with [{ error: "" }]. *)
Lemma empty_message_is_replaced :
  let upstream := answering empty_message_response in
  let w := snd (invoke (H := example_host) (Some "secret") upstream
                  hello_request) in
  contacted (H := example_host) (Some "secret") upstream hello_request
    hello_call /\
  upstream hello_call = Ok empty_message_response /\
  response_ok empty_message_response = false /\
  nested_message (JObj [("error", JObj [("message", JStr "")])])
  = JStr "" /\
  answered_error w 403 (JStr "Failed to generate speech") /\
  ~ answered_error w 403 (JStr "").
Proof.
  cbv zeta. repeat split; try reflexivity.
  - unfold contacted. vm_compute. left. reflexivity.
  - intros [_ Hsent]. vm_compute in Hsent. discriminate Hsent.
Qed.


(** C6 as stated fails: both fields are present, the text being empty,
    the credential is absent, and the relay answers 400 with the
    missing-fields error, not 500. *)
Lemma empty_text_is_missing :
  let w := snd (invoke (H := example_host) None (answering hello_response)
                  empty_text_request) in
  method empty_text_request = "POST" /\
  field "text" empty_text_request = JStr "" /\
  field "voice" empty_text_request = JStr "en-US-Neural2-A" /\
  answered_error w 400 (JStr "Missing required fields: text and voice") /\
  ~ answered_error w 500
      (JStr "Server configuration error: API key not found").
Proof.
  cbv zeta. repeat split; try reflexivity.
  intros [Hstatus _]. vm_compute in Hstatus. discriminate Hstatus.
Qed.

(** Outside the interface of section 6. A POST without a body: the
    destructuring of line 292 throws, before the [try], and nothing is
    sent. A voice that is a number: [voice.split] is no function, and
    line 325 throws, before the [try] as well. *)
Lemma handler_without_body_throws :
  let '(out, w) :=
    invoke (H := example_host) (Some "secret") (answering hello_response)
      {| method := "POST"; body := JUndefined |} in
  out = Throw (mkError "TypeError"
    "Cannot destructure property 'text' of 'req.body' as it is undefined.")
  /\ sent (res w) = None /\ fetched w = [].
Proof. repeat split. Qed.

Lemma handler_with_numeric_voice_throws :
  let '(out, w) :=
    invoke (H := example_host) (Some "secret") (answering hello_response)
      {| method := "POST";
         body := JObj [("text", JStr "Hello world, this is a test.");
                       ("voice", JNum 7%float)] |} in
  out = Throw (mkError "TypeError" "voice.split is not a function")
  /\ sent (res w) = None /\ fetched w = [].
Proof. repeat split. Qed.

End RelayScenarios.

(** ** The browser script *)

Section ClientFacts.

Import Client ClientSpec.

Context `{Host}.

Ltac run :=
  cbv beta iota zeta delta
    [generateAudio downloadAudio fetch bind ret lift throw try_catch modify
     on_page showError showLoading hideLoading showSuccess
     set_currentAudioBlob set_audioPlayer_src console_error save_file];
  cbn [page currentAudioBlob requests downloads console
       errorText_textContent loadingState_show errorMessage_show
       successMessage_show audioPreview_show generateBtn_disabled
       audioPlayer_src fst snd].

Lemma falsy_string_empty (t : string) :
  negb (truthy (JStr t)) = true <-> String.length t = 0%nat.
Proof.
  destruct t; cbn; split; intros Ht; try reflexivity; discriminate Ht.
Qed.

Lemma app_one_neq {A} (l : list A) (x : A) : (l ++ [x])%list <> l.
Proof.
  intros Heq. apply (f_equal (@length A)) in Heq.
  rewrite length_app in Heq. cbn in Heq. lia.
Qed.

(** The three ways through the two checks of lines 93-101. *)
Lemma generateAudio_empty relay form w :
  String.length (trim (scriptInput_value form)) = 0%nat ->
  generateAudio relay form w
  = showError "Please enter some text for your script" w.
Proof.
  intros Ht. apply falsy_string_empty in Ht. unfold generateAudio.
  cbv zeta. rewrite Ht. reflexivity.
Qed.

Lemma generateAudio_short relay form w :
  (0 < String.length (trim (scriptInput_value form)) < 10)%nat ->
  generateAudio relay form w
  = showError "Script is too short. Please add more text." w.
Proof.
  intros [Hpos Hlt]. unfold generateAudio. cbv zeta.
  destruct (negb (truthy (JStr (trim (scriptInput_value form))))) eqn:Ht.
  - apply falsy_string_empty in Ht. lia.
  - apply Nat.ltb_lt in Hlt. rewrite Hlt. reflexivity.
Qed.

(** A text that passes both checks: the request goes out once, the
    function returns, and the stored blob and the error panel tell whether
    the attempt delivered an artifact. *)
Lemma generateAudio_valid relay form w :
  (10 <= String.length (trim (scriptInput_value form)))%nat ->
  let '(out, w') := generateAudio relay form w in
  out = Ok tt /\
  requests w' = (requests w ++ [request_of form])%list /\
  downloads w' = downloads w /\
  match generated relay form with
  | Some blob =>
      currentAudioBlob w' = Some blob /\
      audioPlayer_src (page w') = Some blob /\
      errorMessage_show (page w') = false /\
      successMessage_show (page w') = true
  | None =>
      currentAudioBlob w' = currentAudioBlob w /\
      audioPlayer_src (page w') = audioPlayer_src (page w) /\
      errorMessage_show (page w') = true /\
      successMessage_show (page w') = false
  end.
Proof.
  intros Hlen. unfold generated.
  assert (Hlt : (String.length (trim (scriptInput_value form)) <? 10)%nat
                = false) by (apply Nat.ltb_ge; exact Hlen).
  assert (Hne : negb (truthy (JStr (trim (scriptInput_value form))))
                = false).
  { destruct (negb (truthy (JStr (trim (scriptInput_value form)))))
      eqn:Ht; [| reflexivity].
    apply falsy_string_empty in Ht. lia. }
  rewrite Hlt. run. rewrite Hne, Hlt.
  fold (request_of form).
  destruct (relay (request_of form)) as [r | e]; [| repeat split].
  destruct (response_ok r); cbn [negb].
  - destruct (response_blob r) as [blob | e]; repeat split.
  - destruct (response_json r) as [errorData | e]; [| repeat split].
    destruct (get errorData "error") as [error | e]; repeat split.
Qed.

Lemma showError_world msg w :
  showError msg w
  = (Ok tt,
     {| page :=
          {| errorText_textContent := msg;
             loadingState_show := false;
             errorMessage_show := true;
             successMessage_show := successMessage_show (page w);
             audioPreview_show := audioPreview_show (page w);
             generateBtn_disabled := false;
             audioPlayer_src := audioPlayer_src (page w) |};
        currentAudioBlob := currentAudioBlob w;
        requests := requests w;
        downloads := downloads w;
        console := console w |}).
Proof. reflexivity. Qed.

(** C3. For every raw text, with t its trimmed form: validation fails
    with the empty-input error (that message on the error panel, no
    request sent) exactly when t has length 0, fails with the too-short
    error (likewise without a request) exactly when t has a length
    strictly between 0 and 10, and succeeds, the request going out,
    exactly in the remaining case. *)
Theorem validation_by_trimmed_length relay form w :
  let t := trim (scriptInput_value form) in
  let w' := snd (generateAudio relay form w) in
  (rejected_with "Please enter some text for your script" w w'
   <-> String.length t = 0%nat)
  /\ (rejected_with "Script is too short. Please add more text." w w'
      <-> (0 < String.length t < 10)%nat)
  /\ (requests w' = (requests w ++ [request_of form])%list
      <-> (10 <= String.length t)%nat).
Proof.
  cbv zeta. unfold rejected_with.
  destruct (Nat.eq_dec (String.length (trim (scriptInput_value form))) 0)
    as [Hzero | Hpos];
    [| destruct (Nat.lt_ge_cases
                   (String.length (trim (scriptInput_value form))) 10)
         as [Hshort | Hlong]].
  - (* empty: the first message, nothing sent *)
    rewrite (generateAudio_empty _ _ _ Hzero), showError_world.
    cbn [snd page requests errorText_textContent errorMessage_show].
    split; [tauto |]. split; split.
    + intros [Hmsg _]. discriminate Hmsg.
    + lia.
    + intros Hsent. symmetry in Hsent. destruct (app_one_neq _ _ Hsent).
    + lia.
  - (* too short: the second message, nothing sent *)
    assert (Hboth : (0 < String.length (trim (scriptInput_value form))
                     < 10)%nat) by lia.
    rewrite (generateAudio_short _ _ _ Hboth), showError_world.
    cbn [snd page requests errorText_textContent errorMessage_show].
    split; [| split]; split.
    + intros [Hmsg _]. discriminate Hmsg.
    + lia.
    + intros _. exact Hboth.
    + tauto.
    + intros Hsent. symmetry in Hsent. destruct (app_one_neq _ _ Hsent).
    + lia.
  - (* long enough: the request goes out *)
    pose proof (generateAudio_valid relay form w Hlong) as Hvalid.
    destruct (generateAudio relay form w) as [out w'].
    destruct Hvalid as (_ & Hreq & _). cbn [snd]. rewrite Hreq.
    split; [| split]; split.
    + intros (_ & _ & Hsame). destruct (app_one_neq _ _ Hsame).
    + lia.
    + intros (_ & _ & Hsame). destruct (app_one_neq _ _ Hsame).
    + lia.
    + intros _. exact Hlong.
    + reflexivity.
Qed.

(** The causes of failure are exactly the attempts that deliver nothing. *)
Lemma generated_None relay form :
  generated relay form = None <-> Failed relay form.
Proof.
  unfold generated. split.
  - destruct (Nat.ltb_spec (String.length (trim (scriptInput_value form)))
                10) as [Hshort | Hlong];
      [intros _; apply validation_failed; exact Hshort |].
    destruct (relay (request_of form)) as [r | e] eqn:Hrelay;
      [| intros _; eapply network_failed; eassumption].
    destruct (response_ok r) eqn:Hok;
      [| intros _; eapply relay_refused; eassumption].
    destruct (response_blob r) as [blob | e] eqn:Hblob;
      [discriminate | intros _; eapply body_unreadable; eassumption].
  - intros [Hshort | e Hlong Hrelay | r Hlong Hrelay Hok
            | r e Hlong Hrelay Hok Hblob].
    + apply Nat.ltb_lt in Hshort. rewrite Hshort. reflexivity.
    + apply Nat.ltb_ge in Hlong. rewrite Hlong, Hrelay. reflexivity.
    + apply Nat.ltb_ge in Hlong. rewrite Hlong, Hrelay, Hok. reflexivity.
    + apply Nat.ltb_ge in Hlong.
      rewrite Hlong, Hrelay, Hok, Hblob. reflexivity.
Qed.

Lemma generated_Some relay form blob :
  generated relay form = Some blob <-> Succeeded relay form blob.
Proof.
  unfold generated, Succeeded. split.
  - destruct (Nat.ltb_spec (String.length (trim (scriptInput_value form)))
                10) as [Hshort | Hlong]; [discriminate |].
    destruct (relay (request_of form)) as [r | e]; [| discriminate].
    destruct (response_ok r) eqn:Hok; [| discriminate].
    destruct (response_blob r) as [b | e] eqn:Hblob; [| discriminate].
    intros [= <-]. split; [exact Hlong |]. exists r. auto.
  - intros (Hlong & r & Hrelay & Hok & Hblob).
    apply Nat.ltb_ge in Hlong. rewrite Hlong, Hrelay, Hok, Hblob.
    reflexivity.
Qed.

(** What one attempt does to the stored blob. *)
Lemma generateAudio_blob relay form w :
  currentAudioBlob (snd (generateAudio relay form w))
  = match generated relay form with
    | Some blob => Some blob
    | None => currentAudioBlob w
    end.
Proof.
  destruct (Nat.lt_ge_cases
              (String.length (trim (scriptInput_value form))) 10)
    as [Hshort | Hlong].
  - assert (Hnone : generated relay form = None)
      by (apply generated_None, validation_failed; exact Hshort).
    rewrite Hnone.
    destruct (Nat.eq_dec (String.length (trim (scriptInput_value form))) 0)
      as [Hzero | Hpos].
    + rewrite (generateAudio_empty _ _ _ Hzero). reflexivity.
    + rewrite generateAudio_short by lia. reflexivity.
  - pose proof (generateAudio_valid relay form w Hlong) as Hvalid.
    destruct (generateAudio relay form w) as [out w'].
    destruct Hvalid as (_ & _ & _ & Hcase). cbn [snd].
    destruct (generated relay form); destruct Hcase as [Hblob _];
      exact Hblob.
Qed.

Lemma downloadAudio_blob now w :
  currentAudioBlob (snd (downloadAudio now w)) = currentAudioBlob w.
Proof.
  unfold downloadAudio.
  destruct (currentAudioBlob w) as [blob |] eqn:Hblob;
    (etransitivity; [| exact Hblob]); reflexivity.
Qed.

(** The stored blob is, at every moment, the artifact of the last
    successful generation. *)
Lemma session_cons e es w :
  session (e :: es) w = session es (snd (click e w)).
Proof. reflexivity. Qed.

Lemma session_blob es w :
  currentAudioBlob (session es w) = last_generated es (currentAudioBlob w).
Proof.
  revert w. induction es as [| [form relay | now] es IH]; intros w.
  - reflexivity.
  - rewrite session_cons, IH. cbn [click last_generated].
    rewrite generateAudio_blob. reflexivity.
  - rewrite session_cons, IH. cbn [click last_generated].
    rewrite downloadAudio_blob. reflexivity.
Qed.

Lemma last_generated_None es acc :
  last_generated es acc = None <->
  acc = None /\
  forall form relay, In (Generate form relay) es -> Failed relay form.
Proof.
  revert acc. induction es as [| [form relay | now] es IH]; intros acc.
  - cbn. split; [intros ->; split; [reflexivity | tauto] | tauto].
  - cbn [last_generated]. rewrite IH. split.
    + intros [Hacc Hrest].
      destruct (generated relay form) as [blob |] eqn:Hgen;
        [discriminate |].
      split; [exact Hacc |].
      intros form' relay' [[= <- <-] | Hin];
        [apply generated_None; exact Hgen | apply Hrest; exact Hin].
    + intros [-> Hall]. split.
      * assert (Hgen : generated relay form = None)
          by (apply generated_None, Hall; left; reflexivity).
        rewrite Hgen. reflexivity.
      * intros form' relay' Hin. apply Hall. right. exact Hin.
  - cbn [last_generated]. rewrite IH. split.
    + intros [-> Hrest]. split; [reflexivity |].
      intros form' relay' [Habs | Hin];
        [discriminate Habs | apply Hrest; exact Hin].
    + intros [-> Hall]. split; [reflexivity |].
      intros form' relay' Hin. apply Hall. right. exact Hin.
Qed.

(** C10. A generation attempt that fails, by client validation, by an
    error response of the relay, or by a thrown network or parse error,
    leaves the stored artifact as it was; the artifact changes only to the
    blob of a successful response. So after any sequence of clicks since
    the page was loaded a download saves the artifact of the last
    successful generation, and it fails with the no-audio error exactly
    when no generation succeeded. *)
Theorem failed_attempt_keeps_artifact :
  (forall relay form w,
      Failed relay form ->
      currentAudioBlob (snd (generateAudio relay form w))
      = currentAudioBlob w)
  /\ (forall relay form w blob,
        currentAudioBlob (snd (generateAudio relay form w)) = Some blob ->
        currentAudioBlob w = Some blob \/ Succeeded relay form blob)
  /\ (forall es now,
        let w := session es initial_world in
        let w' := snd (downloadAudio now w) in
        (forall blob,
            last_generated es None = Some blob ->
            downloads w'
            = (downloads w
               ++ [(blob, ("voiceover-" ++ int_to_string now
                            ++ ".mp3")%string)])%list)
        /\ ((downloads w' = downloads w /\
             errorMessage_show (page w') = true /\
             errorText_textContent (page w')
             = "No audio to download. Please generate audio first.")
            <-> forall form relay,
                In (Generate form relay) es -> Failed relay form)).
Proof.
  split; [| split].
  - intros relay form w Hfailed. apply generated_None in Hfailed.
    rewrite generateAudio_blob, Hfailed. reflexivity.
  - intros relay form w blob. rewrite generateAudio_blob.
    destruct (generated relay form) as [b |] eqn:Hgen.
    + intros [= ->]. right. apply generated_Some. exact Hgen.
    + auto.
  - intros es now. cbv zeta.
    pose proof (session_blob es initial_world) as Hinv.
    cbn [currentAudioBlob initial_world] in Hinv.
    unfold downloadAudio. rewrite Hinv. split.
    + intros blob ->. reflexivity.
    + destruct (last_generated es None) as [blob |] eqn:Hlast.
      * split.
        -- intros [Hsame _]. exfalso. eapply app_one_neq. exact Hsame.
        -- intros Hall.
           assert (Hnone : last_generated es None = None)
             by (apply last_generated_None; auto).
           congruence.
      * rewrite showError_world.
        cbn [snd page downloads errorMessage_show errorText_textContent].
        apply last_generated_None in Hlast as [_ Hall].
        split; [intros _; exact Hall | auto].
Qed.

End ClientFacts.

(** ** The scenarios, run *)

Section Scenarios.

Import Client ClientSpec.

(** Scenario B: "short" is rejected as too short, and nothing is sent. *)
Lemma validation_by_trimmed_length_witness :
  let w' := snd (generateAudio (H := example_host) relay_ok short_form
                   initial_world) in
  rejected_with "Script is too short. Please add more text."
    initial_world w' /\
  requests w' = [].
Proof.
  cbv zeta.
  destruct (validation_by_trimmed_length (H := example_host) relay_ok
              short_form initial_world) as (_ & [_ Hshort] & _).
  split; [apply Hshort; vm_compute; lia | reflexivity].
Defined.

(** A success, then a refusal by the relay, then a text that is too short:
    the blob of the success is still stored, and a download saves it. *)
Lemma failed_attempt_keeps_artifact_witness :
  let w1 := session (H := example_host) [Generate hello_form relay_ok]
              initial_world in
  let w3 := session (H := example_host)
              [Generate hello_form relay_ok;
               Generate hello_form relay_misconfigured;
               Generate short_form relay_ok] initial_world in
  Failed (H := example_host) relay_misconfigured hello_form /\
  currentAudioBlob
    (snd (generateAudio (H := example_host) relay_misconfigured hello_form
            w1))
  = Some hello_blob /\
  downloads (snd (downloadAudio 1730000000000%Z w3))
  = [(hello_blob, "voiceover-1730000000000.mp3")].
Proof.
  cbv zeta.
  destruct (failed_attempt_keeps_artifact (H := example_host))
    as (Hkeep & _ & Hsession).
  assert (Hfailed : Failed (H := example_host) relay_misconfigured
                      hello_form).
  { eapply relay_refused; [vm_compute; lia | reflexivity | reflexivity]. }
  split; [exact Hfailed |]. split.
  - rewrite (Hkeep relay_misconfigured hello_form _ Hfailed). reflexivity.
  - destruct (Hsession [Generate hello_form relay_ok;
                        Generate hello_form relay_misconfigured;
                        Generate short_form relay_ok] 1730000000000%Z)
      as [Hsave _].
    rewrite (Hsave hello_blob) by reflexivity. reflexivity.
Defined.

(** The five bytes of "Hello" through the provider and the relay. *)
Lemma transcoding_round_trip_witness :
  Base64.encode [x48; x65; x6c; x6c; x6f] = "SGVsbG8=" /\
  let w := snd (Relay.invoke (H := example_host) (Some "secret")
                  (RelaySpec.answering RelaySpec.hello_response)
                  RelaySpec.hello_request) in
  Relay.sent (Relay.res w)
  = Some (Relay.BytesBody [x48; x65; x6c; x6c; x6f]) /\
  Relay.headers (Relay.res w) !! "Content-Length" = Some (Relay.HNum 5).
Proof.
  split; [reflexivity |].
  destruct transcoding_round_trip as (_ & Hrelay & _).
  apply (Hrelay example_host (Some "secret")
           (RelaySpec.answering RelaySpec.hello_response)
           RelaySpec.hello_request RelaySpec.hello_call
           RelaySpec.hello_response
           (JObj [("audioContent", JStr "SGVsbG8=")])
           [x48; x65; x6c; x6c; x6f]);
    first [ unfold RelaySpec.contacted; vm_compute; left; reflexivity
          | reflexivity | discriminate ].
Defined.

End Scenarios.

(** * Further properties *)

(** ** The relay, path by path *)

Section RelayPaths.

Import Relay RelaySpec RelayShape.
#[local] Open Scope Z_scope.

Context `{Host}.
Variable GOOGLE_CLOUD_API_KEY : option string.
Variable upstream : FetchCall -> Exc UpstreamResponse.

(** Unfolds one run of the handler, recorded in [Hrun], and follows every
    branch of it to its end. *)
Ltac unfold_run Hrun :=
  cbv beta iota zeta delta
    [invoke handler call_provider on_error fetch bind ret lift throw
     try_catch modify on_res res_setHeader res_status res_end res_json
     res_send console_error fresh_world googleRequestBody destructure]
    in Hrun;
  cbn [res fetched console headers statusCode sent fst snd] in Hrun.

Ltac branch Hrun :=
  match type of Hrun with
  | context [String.eqb (method ?r) ?m] =>
      destruct (String.eqb (method r) m) eqn:?
  | context [is_nullish (body ?r)] =>
      destruct (is_nullish (body r)) eqn:?
  | context [get (body ?r) ?k] =>
      rewrite (get_not_nullish (body r) k) in Hrun by assumption;
      fold (field k r) in Hrun
  | context [truthy (field ?k ?r)] =>
      destruct (truthy (field k r)) eqn:?
  | context [match GOOGLE_CLOUD_API_KEY with _ => _ end] =>
      destruct GOOGLE_CLOUD_API_KEY as [[| ? ?] |] eqn:?
  | context [match field "voice" ?r with _ => _ end] =>
      destruct (field "voice" r) eqn:?
  | context [upstream ?c] => destruct (upstream c) eqn:?
  | context [response_ok ?r] => destruct (response_ok r) eqn:?
  | context [response_json ?r] => destruct (response_json r) eqn:?
  | context [get ?d ?k] => destruct (get d k) eqn:?
  | context [truthy ?v] => destruct (truthy v) eqn:?
  | context [Buffer_from ?v] => destruct (Buffer_from v) eqn:?
  end;
  cbn [negb orb andb res fetched console headers statusCode sent fst snd]
    in Hrun.

Ltac paths Hrun :=
  unfold_run Hrun; repeat branch Hrun;
  injection Hrun as <- <-;
  cbn [res fetched console headers statusCode sent fst snd].

(** What the relay sends is framed by its kind: audio bytes go out with
    status 200, the audio media type and their own length; a JSON body is
    always [{ error: m }] with a truthy [m], under a status outside
    200-299 and the JSON media type; the empty body is the answer to
    OPTIONS; and nothing is sent exactly when the handler ended by an
    exception. *)
Theorem response_framing req :
  let '(out, w) := invoke GOOGLE_CLOUD_API_KEY upstream req in
  (forall b,
      sent (res w) = Some (BytesBody b) ->
      statusCode (res w) = 200 /\
      headers (res w) !! "Content-Type" = Some (HStr "audio/mpeg") /\
      headers (res w) !! "Content-Length" = Some (HNum (length b)))
  /\ (forall v,
        sent (res w) = Some (JsonBody v) ->
        status_ok (statusCode (res w)) = false /\
        headers (res w) !! "Content-Type"
        = Some (HStr "application/json; charset=utf-8") /\
        exists m, v = error_body m /\ truthy m = true)
  /\ (sent (res w) = Some EmptyBody ->
      method req = "OPTIONS" /\ statusCode (res w) = 200)
  /\ (sent (res w) = None <-> exists e, out = Throw e).
Proof.
  destruct (invoke GOOGLE_CLOUD_API_KEY upstream req) as [out w] eqn:Hrun.
  paths Hrun.
  all: repeat split; intros;
    repeat match goal with
      | Hs : Some _ = None |- _ => discriminate Hs
      | Hs : None = Some _ |- _ => discriminate Hs
      | Hs : Some ?a = Some ?b |- _ =>
          first [ discriminate Hs | injection Hs as <- ]
      | He : exists e, Ok _ = Throw e |- _ =>
          destruct He as [? He]; discriminate He
      | Hm : String.eqb _ _ = true |- _ => apply String.eqb_eq in Hm
      end;
    try reflexivity; try assumption; try (eexists; reflexivity);
    try (eexists; split; [reflexivity |]).
  all: try reflexivity.
  unfold or_else.
  destruct (truthy (get_opt _ "message")) eqn:Hmsg;
    [exact Hmsg | reflexivity].
Qed.

(** Every invocation leaves the three CORS headers on the response,
    whatever the method, the body and the provider do, also when the
    handler ends by an exception. *)
Theorem cors_headers_always req :
  cors_headers_set (res (snd (invoke GOOGLE_CLOUD_API_KEY upstream req))).
Proof.
  destruct (invoke GOOGLE_CLOUD_API_KEY upstream req) as [out w] eqn:Hrun.
  paths Hrun.
  all: repeat split.
Qed.

(** The pre-flight request: an OPTIONS request is answered 200 with an
    empty body; its body is not read, the credential is not looked at,
    the provider is not called and nothing is logged. *)
Theorem preflight_is_answered_empty req :
  method req = "OPTIONS" ->
  let '(out, w) := invoke GOOGLE_CLOUD_API_KEY upstream req in
  out = Ok tt /\
  statusCode (res w) = 200 /\
  sent (res w) = Some EmptyBody /\
  fetched w = [] /\ console w = [].
Proof.
  intros Hm.
  destruct (invoke GOOGLE_CLOUD_API_KEY upstream req) as [out w] eqn:Hrun.
  unfold_run Hrun. rewrite Hm in Hrun. cbn in Hrun.
  injection Hrun as <- <-. repeat split.
Qed.

(** Any method other than OPTIONS and POST is answered 405 with
    [{ error: "Method not allowed. Use POST." }]; the body is not read,
    so a request without one is answered too, and the provider is not
    called. *)
Theorem other_methods_are_refused req :
  method req <> "OPTIONS" ->
  method req <> "POST" ->
  let '(out, w) := invoke GOOGLE_CLOUD_API_KEY upstream req in
  out = Ok tt /\
  answered_error w 405 (JStr "Method not allowed. Use POST.") /\
  fetched w = [] /\ console w = [].
Proof.
  intros Hopt Hpost.
  apply String.eqb_neq in Hopt, Hpost.
  destruct (invoke GOOGLE_CLOUD_API_KEY upstream req) as [out w] eqn:Hrun.
  unfold_run Hrun. rewrite Hopt, Hpost in Hrun. cbn in Hrun.
  injection Hrun as <- <-. repeat split.
Qed.

Lemma field_without_body req k :
  is_nullish (body req) = true -> field k req = JUndefined.
Proof. unfold field, get_opt. intros ->. reflexivity. Qed.

Ltac use_equations :=
  repeat match goal with
    | Hm : String.eqb (method _) "OPTIONS" = true |- _ =>
        apply String.eqb_eq in Hm
    | Hn : is_nullish (body ?r) = true |- context [field ?k ?r] =>
        rewrite (field_without_body r k Hn)
    | Heq : ?x = _ |- context [?x] => rewrite Heq
    end.

(** The handler ends by an exception nobody catches, having sent nothing,
    exactly on the requests of [ends_uncaught]: a POST without a body,
    and an otherwise valid POST whose voice is not a string. On every
    other request it returns. *)
Theorem uncaught_exactly req :
  let '(out, w) := invoke GOOGLE_CLOUD_API_KEY upstream req in
  ((exists e, out = Throw e)
   <-> ends_uncaught GOOGLE_CLOUD_API_KEY req = true)
  /\ (out = Ok tt <-> ends_uncaught GOOGLE_CLOUD_API_KEY req = false)
  /\ ((exists e, out = Throw e) -> sent (res w) = None /\ fetched w = []).
Proof.
  destruct (invoke GOOGLE_CLOUD_API_KEY upstream req) as [out w] eqn:Hrun.
  paths Hrun.
  all: unfold ends_uncaught; use_equations; cbn.
  all: repeat split; intros;
    repeat match goal with
      | He : exists e, Ok _ = Throw e |- _ =>
          destruct He as [? He]; discriminate He
      end;
    try reflexivity; try discriminate; try (eexists; reflexivity).
Qed.

(** The provider is called exactly on the requests of [reaches_provider],
    and then once: with the POST method, the JSON content type, and the
    URL of the synthesis endpoint followed by the configured key. *)
Theorem provider_called_exactly_once_when_valid req :
  let w := snd (invoke GOOGLE_CLOUD_API_KEY upstream req) in
  (reaches_provider GOOGLE_CLOUD_API_KEY req = false -> fetched w = [])
  /\ (reaches_provider GOOGLE_CLOUD_API_KEY req = true ->
      exists apiKey payload,
        GOOGLE_CLOUD_API_KEY = Some apiKey /\
        fetched w
        = [ {| url :=
                 "https://texttospeech.googleapis.com/v1/text:synthesize?key="
                 ++ apiKey;
               fetch_method := "POST";
               fetch_headers := [("Content-Type", "application/json")];
               fetch_body := payload |} ])
  /\ (length (fetched w) <= 1)%nat.
Proof.
  cbv zeta.
  destruct (invoke GOOGLE_CLOUD_API_KEY upstream req) as [out w] eqn:Hrun.
  paths Hrun.
  all: unfold reaches_provider; use_equations; cbn.
  all: repeat split; intros; try discriminate; try reflexivity; try lia.
  all: eexists _, _; split; reflexivity.
Qed.

(** An empty credential counts as none: with the variable set to the
    empty string, a POST with both fields present is answered 500 with
    the configuration error and the provider is not called. *)
Theorem empty_key_is_no_key req :
  method req = "POST" ->
  present "text" req ->
  present "voice" req ->
  GOOGLE_CLOUD_API_KEY = Some "" ->
  let '(out, w) := invoke GOOGLE_CLOUD_API_KEY upstream req in
  out = Ok tt /\
  answered_error w 500
    (JStr "Server configuration error: API key not found") /\
  fetched w = [].
Proof.
  intros Hm Ht Hv Hk. pose proof (present_has_body _ _ Ht) as Hb.
  unfold present, has_body in *.
  destruct (invoke GOOGLE_CLOUD_API_KEY upstream req) as [out w] eqn:Hrun.
  unfold_run Hrun. rewrite Hm, Hb in Hrun.
  rewrite !(get_not_nullish _ _ Hb) in Hrun.
  fold (field "text" req) (field "voice" req) in Hrun.
  rewrite Ht, Hv, Hk in Hrun. cbn in Hrun.
  injection Hrun as <- <-. repeat split.
Qed.

(** What the relay logs. A request refused before the provider call
    (405, 400, missing credential) and an audio response leave the
    console empty. An entry is one of the two of lines 358 and 401: the
    parsed body of a provider response with an error status, or a caught
    error, and then the response is the 500 carrying that error's
    message. *)
Theorem relay_logging req :
  let w := snd (invoke GOOGLE_CLOUD_API_KEY upstream req) in
  (fetched w = [] -> console w = [])
  /\ (forall b, sent (res w) = Some (BytesBody b) -> console w = [])
  /\ Forall logged_by_relay (console w)
  /\ (forall label v,
        In (LogValue label v) (console w) ->
        exists c r,
          fetched w = [c] /\ upstream c = Ok r /\
          response_ok r = false /\ response_json r = Ok v)
  /\ (forall label e,
        In (LogError label e) (console w) ->
        answered_error w 500
          (JStr ("Internal server error: " ++ message e))).
Proof.
  cbv zeta.
  destruct (invoke GOOGLE_CLOUD_API_KEY upstream req) as [out w] eqn:Hrun.
  paths Hrun.
  all: cbn [app].
  all: repeat split; intros; try discriminate; try reflexivity;
    repeat match goal with
      | Hin : In _ [] |- _ => destruct Hin
      | Hin : In _ (_ :: _) |- _ => destruct Hin as [Hin | Hin]
      | Heq : LogValue _ _ = LogValue _ _ |- _ => injection Heq as <- <-
      | Heq : LogError _ _ = LogError _ _ |- _ => injection Heq as <- <-
      | Heq : LogValue _ _ = LogError _ _ |- _ => discriminate Heq
      | Heq : LogError _ _ = LogValue _ _ |- _ => discriminate Heq
      end;
    try reflexivity;
    try (repeat constructor; fail);
    try (eexists _, _; repeat split; eassumption).
Qed.

(** The provider's status is lost when its error body cannot be used:
    if the provider answers with an error status S and a body that is
    no JSON, or that parses to [null], the relay does not answer S but
    500 with the internal-error message of the parser or of the failed
    property read; in the second case the console holds the parsed body
    and the caught error. *)
Theorem unusable_error_body_gives_500 req c r :
  contacted GOOGLE_CLOUD_API_KEY upstream req c ->
  upstream c = Ok r ->
  response_ok r = false ->
  let w := snd (invoke GOOGLE_CLOUD_API_KEY upstream req) in
  (forall e,
      response_json r = Throw e ->
      answered_error w 500 (JStr ("Internal server error: " ++ message e))
      /\ console w = [LogError "Error:" e])
  /\ (response_json r = Ok JNull ->
      answered_error w 500
        (JStr ("Internal server error: "
               ++ "Cannot read properties of null (reading 'error')"))
      /\ console w
         = [LogValue "Google API Error:" JNull;
            LogError "Error:"
              (mkError "TypeError"
                 "Cannot read properties of null (reading 'error')")]).
Proof.
  intros Hc Hup Hok. cbv zeta.
  destruct (contacted_guarded _ _ _ _ Hc) as (apiKey & payload & -> & Hrun).
  rewrite Hrun.
  cbv beta iota zeta delta
    [call_provider on_error fetch bind ret lift throw try_catch modify
     on_res res_setHeader res_status res_end res_json res_send
     console_error with_cors fresh_world];
  cbn [res fetched console headers statusCode sent fst snd].
  fold (provider_call apiKey payload). rewrite Hup, Hok. cbn [negb].
  split.
  - intros e ->. repeat split.
  - intros ->. repeat split.
Qed.

End RelayPaths.

(** ** The language code of a voice *)

Lemma split_pieces_free sep s :
  Forall (fun piece => free_of sep piece = true) (split sep s).
Proof.
  induction s as [| c s' IH]; cbn [split].
  - repeat constructor.
  - destruct (Ascii.eqb c sep) eqn:Hc.
    + constructor; [reflexivity | exact IH].
    + destruct (split sep s') as [| h t].
      * repeat constructor. cbn. rewrite Hc. reflexivity.
      * inversion IH as [| ? ? Hh Ht]; subst.
        constructor; [| exact Ht]. cbn. rewrite Hc, Hh. reflexivity.
Qed.

Lemma string_app_assoc (a b c : string) : (a ++ b) ++ c = a ++ b ++ c.
Proof.
  induction a as [| x a IH]; [reflexivity |].
  change (String x ((a ++ b) ++ c) = String x (a ++ b ++ c)).
  f_equal. exact IH.
Qed.

(** The language code sent to the provider (line 325) is the voice up to
    its second hyphen: a voice without a hyphen or with one is its own
    language code, and a longer voice is cut before the second hyphen. In
    particular the code never has more than one hyphen. *)
Theorem language_code_shape voice :
  let code := join "-" (slice0 2 (split "-" voice)) in
  exists a,
    free_of "-" a = true /\
    ((code = a /\ voice = a)
     \/ exists b,
          free_of "-" b = true /\ code = a ++ "-" ++ b /\
          (voice = code \/ exists rest, voice = code ++ "-" ++ rest)).
Proof.
  cbv zeta.
  pose proof (join_split "-" voice) as Hjoin.
  pose proof (split_pieces_free "-" voice) as Hfree.
  pose proof (split_not_nil "-" voice) as Hne.
  destruct (split "-" voice) as [| a [| b [| c rest]]]; [congruence | | |].
  - inversion Hfree as [| ? ? Ha _]; subst.
    exists a. split; [exact Ha |]. left. split; reflexivity.
  - inversion Hfree as [| ? ? Ha Hrest]; subst.
    inversion Hrest as [| ? ? Hb _]; subst.
    exists a. split; [exact Ha |]. right.
    exists b. split; [exact Hb |]. split; [reflexivity |].
    left. reflexivity.
  - inversion Hfree as [| ? ? Ha Hrest]; subst.
    inversion Hrest as [| ? ? Hb _]; subst.
    exists a. split; [exact Ha |]. right.
    exists b. split; [exact Hb |]. split; [reflexivity |].
    right. exists (join "-" (c :: rest)).
    change (join "-" (slice0 2 (a :: b :: c :: rest))) with (a ++ "-" ++ b).
    change (join (String "-" "") (a :: b :: c :: rest))
      with (a ++ "-" ++ b ++ "-" ++ join "-" (c :: rest)).
    rewrite !string_app_assoc. reflexivity.
Qed.

(** ** Trimming *)

Section TrimFacts.

Import ClientShape.

Lemma trimStart_first s c :
  first_char (trimStart s) = Some c -> is_white_space c = false.
Proof.
  induction s as [| x s' IH]; cbn [trimStart]; [discriminate |].
  destruct (is_white_space x) eqn:Hx; [exact IH |].
  cbn. intros [= <-]. exact Hx.
Qed.

Lemma trimEnd_last s c :
  last_char (trimEnd s) = Some c -> is_white_space c = false.
Proof.
  induction s as [| x s' IH]; cbn [trimEnd]; [discriminate |].
  destruct (is_white_space x && String.eqb (trimEnd s') "") eqn:Hdrop;
    [discriminate |].
  destruct (trimEnd s') as [| y r] eqn:Hr.
  - cbn. intros [= <-]. rewrite andb_true_r in Hdrop. exact Hdrop.
  - exact IH.
Qed.

Lemma trimEnd_first s c :
  first_char s = Some c -> is_white_space c = false ->
  first_char (trimEnd s) = Some c.
Proof.
  destruct s as [| x s']; [discriminate |].
  cbn [first_char trimEnd]. intros [= ->] Hc. rewrite Hc. reflexivity.
Qed.

(** The trimmed text has no white space at either end. *)
Lemma trim_clean_ends s : clean_ends (trim s).
Proof.
  unfold clean_ends, trim. split; [| apply trimEnd_last].
  intros c Hc.
  destruct (trimStart s) as [| x r] eqn:Hstart; [discriminate Hc |].
  assert (Hx : is_white_space x = false)
    by (apply (trimStart_first s); rewrite Hstart; reflexivity).
  rewrite (trimEnd_first (String x r) x eq_refl Hx) in Hc.
  injection Hc as <-. exact Hx.
Qed.

Lemma trimStart_length s :
  (String.length (trimStart s) <= String.length s)%nat.
Proof.
  induction s as [| x s' IH]; cbn [trimStart]; [lia |].
  destruct (is_white_space x); cbn [String.length]; lia.
Qed.

Lemma trimEnd_length s :
  (String.length (trimEnd s) <= String.length s)%nat.
Proof.
  induction s as [| x s' IH]; cbn [trimEnd]; [lia |].
  destruct (is_white_space x && String.eqb (trimEnd s') "");
    cbn [String.length]; lia.
Qed.

Lemma trim_length s : (String.length (trim s) <= String.length s)%nat.
Proof.
  unfold trim. pose proof (trimEnd_length (trimStart s)).
  pose proof (trimStart_length s). lia.
Qed.

Lemma trimStart_blank s : trimStart s = "" <-> blank s = true.
Proof.
  induction s as [| x s' IH]; cbn [trimStart blank]; [tauto |].
  destruct (is_white_space x); cbn [andb]; [exact IH |].
  split; discriminate.
Qed.

(** Trimming leaves nothing exactly of the texts made of white space. *)
Lemma trim_empty_iff_blank s : trim s = "" <-> blank s = true.
Proof.
  rewrite <- trimStart_blank. unfold trim. split.
  - intros Hend.
    destruct (trimStart s) as [| x r] eqn:Hstart; [reflexivity |].
    assert (Hx : is_white_space x = false)
      by (apply (trimStart_first s); rewrite Hstart; reflexivity).
    pose proof (trimEnd_first (String x r) x eq_refl Hx) as Hfirst.
    rewrite Hend in Hfirst. discriminate Hfirst.
  - intros ->. reflexivity.
Qed.

End TrimFacts.

(** ** The browser script, path by path *)

Section ClientPaths.

Import Client ClientSpec ClientShape.

Context `{Host}.

(** One attempt ends in one of three worlds, told apart by the trimmed
    length and by what the relay answers. *)
Lemma generateAudio_outcomes relay form w :
  (String.length (trim (scriptInput_value form)) = 0%nat /\
   generateAudio relay form w
   = (Ok tt, rejected_world "Please enter some text for your script" w))
  \/ ((0 < String.length (trim (scriptInput_value form)) < 10)%nat /\
      generateAudio relay form w
      = (Ok tt,
         rejected_world "Script is too short. Please add more text." w))
  \/ ((10 <= String.length (trim (scriptInput_value form)))%nat /\
      exists blob,
        generated relay form = Some blob /\
        reported_error relay form = None /\
        generateAudio relay form w = (Ok tt, delivered_world form blob w))
  \/ ((10 <= String.length (trim (scriptInput_value form)))%nat /\
      generated relay form = None /\
      exists e,
        reported_error relay form = Some e /\
        generateAudio relay form w = (Ok tt, failed_world form e w)).
Proof.
  destruct (Nat.eq_dec (String.length (trim (scriptInput_value form))) 0)
    as [Hzero | Hpos];
    [| destruct (Nat.lt_ge_cases
                   (String.length (trim (scriptInput_value form))) 10)
         as [Hshort | Hlong]].
  - left. split; [exact Hzero |].
    rewrite (generateAudio_empty _ _ _ Hzero). reflexivity.
  - right. left. split; [lia |].
    rewrite generateAudio_short by lia. reflexivity.
  - right. right.
    assert (Hlt : (String.length (trim (scriptInput_value form)) <? 10)%nat
                  = false) by (apply Nat.ltb_ge; exact Hlong).
    assert (Hne : negb (truthy (JStr (trim (scriptInput_value form))))
                  = false).
    { destruct (negb (truthy (JStr (trim (scriptInput_value form)))))
        eqn:Ht; [| reflexivity].
      apply falsy_string_empty in Ht. lia. }
    unfold generated, reported_error, generateAudio. cbv zeta.
    rewrite Hne, Hlt.
    cbv beta iota zeta delta
      [fetch bind ret lift throw try_catch modify on_page showError
       showLoading hideLoading showSuccess set_currentAudioBlob
       set_audioPlayer_src console_error];
    cbn [page currentAudioBlob requests downloads console
         errorText_textContent loadingState_show errorMessage_show
         successMessage_show audioPreview_show generateBtn_disabled
         audioPlayer_src fst snd].
    fold (request_of form).
    destruct (relay (request_of form)) as [r | e];
      [| right; split; [exact Hlong |]; split; [reflexivity |];
         eexists; split; reflexivity].
    destruct (response_ok r); cbn [negb].
    + destruct (response_blob r) as [blob | e].
      * left. split; [exact Hlong |]. exists blob. repeat split.
      * right. split; [exact Hlong |]. split; [reflexivity |].
        eexists; split; reflexivity.
    + right. split; [exact Hlong |]. split; [reflexivity |].
      destruct (response_json r) as [errorData | e];
        [| eexists; split; reflexivity].
      destruct (get errorData "error") as [error | e];
        eexists; split; reflexivity.
Qed.

Ltac on_outcome relay form w :=
  destruct (generateAudio_outcomes relay form w)
    as [(Hlen & Hrun)
       | [(Hlen & Hrun)
         | [(Hlen & blob & Hgen & Hrep & Hrun)
           | (Hlen & Hgen & e & Hrep & Hrun)]]];
  rewrite Hrun; cbn [snd fst].

(** However an attempt ends, [generateAudio] returns, and it leaves the
    loading panel hidden and the generate button enabled; and so does
    every sequence of clicks since the page was loaded. *)
Theorem controls_are_released :
  (forall relay form w,
      let '(out, w') := generateAudio relay form w in
      out = Ok tt /\
      generateBtn_disabled (page w') = false /\
      loadingState_show (page w') = false)
  /\ (forall es,
        let w := session es initial_world in
        generateBtn_disabled (page w) = false /\
        loadingState_show (page w) = false).
Proof.
  assert (Hone : forall relay form w,
             let '(out, w') := generateAudio relay form w in
             out = Ok tt /\
             generateBtn_disabled (page w') = false /\
             loadingState_show (page w') = false).
  { intros relay form w. on_outcome relay form w; repeat split. }
  split; [exact Hone |].
  intros es. cbv zeta.
  enough (Hinv : forall w,
             generateBtn_disabled (page w) = false /\
             loadingState_show (page w) = false ->
             generateBtn_disabled (page (session es w)) = false /\
             loadingState_show (page (session es w)) = false)
    by (apply Hinv; split; reflexivity).
  induction es as [| [form relay | now] es IH]; intros w Hidle.
  - exact Hidle.
  - rewrite session_cons. apply IH. cbn [click].
    pose proof (Hone relay form w) as Hw.
    destruct (generateAudio relay form w) as [out w']. tauto.
  - rewrite session_cons. apply IH. cbn [click]. unfold downloadAudio.
    destruct (currentAudioBlob w); [exact Hidle | split; reflexivity].
Qed.

(** The panels an attempt leaves. A rejected text returns before any
    [await]: the error panel is shown and the success panel, the
    preview, the player and the stored artifact are left as they were
    ([showError] hides none of them), so that a result of an earlier
    attempt stays on the page next to the error. An attempt that delivers
    an artifact ends by showing the success panel and the preview
    together, the player on the new blob; an attempt that fails after
    validation ends by showing the error panel. *)
Theorem panels_after_attempt relay form w :
  let w' := snd (generateAudio relay form w) in
  ((String.length (trim (scriptInput_value form)) < 10)%nat ->
   errorMessage_show (page w') = true /\
   successMessage_show (page w') = successMessage_show (page w) /\
   audioPreview_show (page w') = audioPreview_show (page w) /\
   audioPlayer_src (page w') = audioPlayer_src (page w) /\
   currentAudioBlob w' = currentAudioBlob w)
  /\ (forall blob,
        generated relay form = Some blob ->
        successMessage_show (page w') = true /\
        audioPreview_show (page w') = true /\
        audioPlayer_src (page w') = Some blob)
  /\ ((10 <= String.length (trim (scriptInput_value form)))%nat ->
      generated relay form = None ->
      errorMessage_show (page w') = true).
Proof.
  cbv zeta. on_outcome relay form w.
  - split; [intros _; repeat split |].
    split; [| lia].
    intros b Hb. apply generated_Some in Hb as [Hlong _]. lia.
  - split; [intros _; repeat split |].
    split; [| lia].
    intros b Hb. apply generated_Some in Hb as [Hlong _]. lia.
  - split; [lia |]. split; [| congruence].
    intros b Hb. assert (b = blob) as -> by congruence. repeat split.
  - split; [lia |]. split; [congruence |]. intros _ _. reflexivity.
Qed.

(** What the user is told when an attempt fails after its text passed
    validation. A thrown network error and a body that cannot be read show
    their own message; an error response of the relay shows the string
    in its [error] field, and "Failed to generate audio" when that field
    is absent or falsy; an error response whose body is no JSON shows the
    parser's message. In each case the error is logged as well. *)
Theorem failure_is_reported relay form w :
  (10 <= String.length (trim (scriptInput_value form)))%nat ->
  let w' := snd (generateAudio relay form w) in
  let shows (msg : string) :=
    errorText_textContent (page w') = msg /\
    errorMessage_show (page w') = true /\
    exists e, message e = msg /\ console w' = (console w ++ [e])%list in
  (forall e, relay (request_of form) = Throw e -> shows (message e))
  /\ (forall r errorData msg,
        relay (request_of form) = Ok r -> response_ok r = false ->
        response_json r = Ok errorData ->
        get errorData "error" = Ok (JStr msg) -> msg <> "" ->
        shows msg)
  /\ (forall r errorData error,
        relay (request_of form) = Ok r -> response_ok r = false ->
        response_json r = Ok errorData ->
        get errorData "error" = Ok error -> truthy error = false ->
        shows "Failed to generate audio")
  /\ (forall r e,
        relay (request_of form) = Ok r -> response_ok r = false ->
        response_json r = Throw e ->
        shows (message e))
  /\ (forall r e,
        relay (request_of form) = Ok r -> response_ok r = true ->
        response_blob r = Throw e ->
        shows (message e)).
Proof.
  intros Hlong. cbv zeta.
  assert (Hshow : forall e,
             reported_error relay form = Some e ->
             errorText_textContent
               (page (snd (generateAudio relay form w))) = message e /\
             errorMessage_show
               (page (snd (generateAudio relay form w))) = true /\
             exists e', message e' = message e /\
                        console (snd (generateAudio relay form w))
                        = (console w ++ [e'])%list).
  { intros e0 He0. on_outcome relay form w; try lia.
    - congruence.
    - assert (e = e0) as -> by congruence.
      repeat split. exists e0. split; reflexivity. }
  unfold reported_error in Hshow.
  split; [| split; [| split; [| split]]].
  - intros e He. apply Hshow. rewrite He. reflexivity.
  - intros r errorData msg Hr Hok Hjson Hget Hmsg.
    apply (Hshow (mkError "Error" msg)).
    rewrite Hr, Hok, Hjson, Hget. unfold or_else.
    destruct msg; [congruence | reflexivity].
  - intros r errorData error Hr Hok Hjson Hget Hfalsy.
    apply (Hshow (mkError "Error" "Failed to generate audio")).
    rewrite Hr, Hok, Hjson, Hget. unfold or_else. rewrite Hfalsy.
    reflexivity.
  - intros r e Hr Hok Hjson. apply Hshow.
    rewrite Hr, Hok, Hjson. reflexivity.
  - intros r e Hr Hok Hblob. apply Hshow.
    rewrite Hr, Hok, Hblob. reflexivity.
Qed.

Lemma request_of_sendable form :
  (10 <= String.length (trim (scriptInput_value form)))%nat ->
  sendable (request_of form).
Proof.
  intros Hlong. unfold sendable, request_of. cbn.
  repeat split. eexists _, _, _. split; [reflexivity |].
  split; [exact Hlong | apply trim_clean_ends].
Qed.

(** What one click does to the log of requests: nothing, or one more
    request, and that one is sendable. *)
Lemma click_requests e w :
  requests (snd (click e w)) = requests w
  \/ exists r, sendable r /\
               requests (snd (click e w)) = (requests w ++ [r])%list.
Proof.
  destruct e as [form relay | now]; cbn [click].
  - on_outcome relay form w; cbn [requests rejected_world delivered_world
                                  failed_world]; auto;
      right; eexists; (split; [apply request_of_sendable; exact Hlen |]);
      reflexivity.
  - left. unfold downloadAudio. destruct (currentAudioBlob w); reflexivity.
Qed.

(** Every request the script ever sends is a POST to
    [/api/generate-speech] with the JSON content type, whose text is the
    trimmed script: at least ten code units, no white space at either
    end. A click on the generate button sends at most one, a click on
    the download button none. *)
Theorem requests_are_sendable es :
  let w := session es initial_world in
  Forall sendable (requests w) /\
  (length (requests w) <= generate_clicks es)%nat.
Proof.
  cbv zeta.
  enough (Hinv : forall w,
             Forall sendable (requests w) ->
             Forall sendable (requests (session es w)) /\
             (length (requests (session es w))
              <= length (requests w) + generate_clicks es)%nat).
  { destruct (Hinv initial_world) as [Hall Hlen]; [constructor |].
    split; [exact Hall | exact Hlen]. }
  induction es as [| e es IH]; intros w Hw.
  - split; [exact Hw | cbn; lia].
  - rewrite session_cons.
    destruct (click_requests e w) as [Hsame | (r & Hr & Hmore)].
    + destruct (IH (snd (click e w))) as [Hall Hlen];
        [rewrite Hsame; exact Hw |].
      split; [exact Hall |]. rewrite Hsame in Hlen.
      destruct e; cbn [generate_clicks]; lia.
    + destruct (IH (snd (click e w))) as [Hall Hlen].
      { rewrite Hmore. apply Forall_app. split; [exact Hw |].
        constructor; [exact Hr | constructor]. }
      split; [exact Hall |]. rewrite Hmore, length_app in Hlen.
      cbn [length] in Hlen.
      destruct e as [form relay | now]; cbn [generate_clicks]; [lia |].
      exfalso. cbn [click] in Hmore. unfold downloadAudio in Hmore.
      destruct (currentAudioBlob w); cbn in Hmore;
        symmetry in Hmore; exact (app_one_neq _ _ Hmore).
Qed.

(** The player and the download agree: after any sequence of clicks
    since the page was loaded, the blob behind the player's source is
    the stored artifact, the one a download saves. *)
Theorem player_plays_stored_artifact es :
  let w := session es initial_world in
  audioPlayer_src (page w) = currentAudioBlob w.
Proof.
  cbv zeta.
  enough (Hinv : forall w,
             audioPlayer_src (page w) = currentAudioBlob w ->
             audioPlayer_src (page (session es w))
             = currentAudioBlob (session es w))
    by (apply Hinv; reflexivity).
  induction es as [| [form relay | now] es IH]; intros w Hw.
  - exact Hw.
  - rewrite session_cons. apply IH. cbn [click].
    on_outcome relay form w; try exact Hw. reflexivity.
  - rewrite session_cons. apply IH. cbn [click]. unfold downloadAudio.
    destruct (currentAudioBlob w) eqn:Hblob; cbn; rewrite ?Hblob;
      exact Hw.
Qed.

(** While the audio preview or the success panel is on the page there
    is an artifact to save: after any sequence of clicks, a download
    requested with one of them shown saves the stored blob, under the
    name [voiceover-<now>.mp3], and does not fail. *)
Theorem preview_means_downloadable es now :
  let w := session es initial_world in
  audioPreview_show (page w) = true \/ successMessage_show (page w) = true ->
  exists blob,
    currentAudioBlob w = Some blob /\
    downloadAudio now w
    = (Ok tt,
       {| page := page w;
          currentAudioBlob := Some blob;
          requests := requests w;
          downloads :=
            downloads w
            ++ [(blob, "voiceover-" ++ int_to_string now ++ ".mp3")];
          console := console w |}).
Proof.
  cbv zeta.
  enough (Hinv : forall w,
             (audioPreview_show (page w) = true
              \/ successMessage_show (page w) = true ->
              currentAudioBlob w <> None) ->
             audioPreview_show (page (session es w)) = true
             \/ successMessage_show (page (session es w)) = true ->
             currentAudioBlob (session es w) <> None).
  { intros Hshown.
    assert (Hsome : currentAudioBlob (session es initial_world) <> None).
    { apply (Hinv initial_world); [| exact Hshown].
      cbn. intros [Habs | Habs]; discriminate Habs. }
    unfold downloadAudio.
    destruct (currentAudioBlob (session es initial_world)) as [blob |]
      eqn:Hblob; [| congruence].
    exists blob. split; [reflexivity |].
    unfold save_file, modify. rewrite Hblob. reflexivity. }
  induction es as [| [form relay | now'] es IH]; intros w Hw.
  - exact Hw.
  - rewrite session_cons. apply IH. cbn [click].
    on_outcome relay form w; cbn; try exact Hw; try discriminate.
    intros [Habs | Habs]; discriminate Habs.
  - rewrite session_cons. apply IH. cbn [click]. unfold downloadAudio.
    destruct (currentAudioBlob w) eqn:Hblob; cbn; rewrite ?Hblob;
      [discriminate | exact Hw].
Qed.

(** A script the counter of lines 30-33 shows shorter than ten is
    rejected without a request, as empty or as too short. The counter
    counts the raw value, though: a value of ten or more code units may
    still trim to fewer than ten and be rejected. *)
Theorem short_count_is_rejected :
  (forall relay form w,
      (charCount_textContent (scriptInput_value form) < 10)%nat ->
      let w' := snd (generateAudio relay form w) in
      requests w' = requests w /\
      errorMessage_show (page w') = true /\
      (errorText_textContent (page w')
       = "Please enter some text for your script"
       \/ errorText_textContent (page w')
          = "Script is too short. Please add more text."))
  /\ (exists value,
        (10 <= charCount_textContent value)%nat /\
        (String.length (trim value) < 10)%nat).
Proof.
  split.
  - intros relay form w Hcount. cbv zeta.
    pose proof (trim_length (scriptInput_value form)) as Htrim.
    unfold charCount_textContent in Hcount.
    on_outcome relay form w; try lia; repeat split; auto.
  - exists "   Hello    ". split; vm_compute; lia.
Qed.

(** A script made of white space only, the empty script included, is
    the one rejected with "Please enter some text for your script": no
    request is sent for it, and no other script gets that rejection. *)
Theorem blank_script_is_empty_input relay form w :
  let w' := snd (generateAudio relay form w) in
  blank (scriptInput_value form) = true
  <-> rejected_with "Please enter some text for your script" w w'.
Proof.
  cbv zeta. rewrite <- trim_empty_iff_blank. unfold rejected_with.
  on_outcome relay form w.
  - split; [intros _; repeat split |].
    intros _.
    destruct (trim (scriptInput_value form)); [reflexivity |].
    discriminate Hlen.
  - split.
    + intros Hempty. rewrite Hempty in Hlen. cbn in Hlen. lia.
    + intros [Hmsg _]. discriminate Hmsg.
  - split.
    + intros Hempty. rewrite Hempty in Hlen. cbn in Hlen. lia.
    + intros (_ & _ & Hsame). destruct (app_one_neq _ _ Hsame).
  - split.
    + intros Hempty. rewrite Hempty in Hlen. cbn in Hlen. lia.
    + intros (_ & _ & Hsame). destruct (app_one_neq _ _ Hsame).
Qed.

End ClientPaths.

(** ** Saving the file *)

Section DownloadFacts.

Import Client ClientSpec ClientShape.

Lemma string_length_app (a b : string) :
  String.length (a ++ b) = (String.length a + String.length b)%nat.
Proof.
  induction a as [| x a IH]; [reflexivity |].
  change (S (String.length (a ++ b))
          = S (String.length a + String.length b)).
  rewrite IH. reflexivity.
Qed.

Lemma string_app_inv_tail (a b s : string) : a ++ s = b ++ s -> a = b.
Proof.
  revert b. induction a as [| x a IH]; intros [| y b] Heq.
  - reflexivity.
  - apply (f_equal String.length) in Heq.
    rewrite !string_length_app in Heq. cbn in Heq. lia.
  - apply (f_equal String.length) in Heq.
    rewrite !string_length_app in Heq. cbn in Heq. lia.
  - change (String x (a ++ s) = String y (b ++ s)) in Heq.
    injection Heq as -> Heq. rewrite (IH b Heq). reflexivity.
Qed.

Lemma int_to_string_inj (a b : Z) :
  int_to_string a = int_to_string b -> a = b.
Proof.
  unfold int_to_string. intros Heq.
  assert (Hparse : forall z,
             NilZero.int_of_string (NilZero.string_of_int (Z.to_int z))
             = Some (Z.to_int z)).
  { intros z. apply NilZero.isi; destruct z; cbn; try discriminate;
      intros [= Hnil]; exact (DecimalPos.Unsigned.to_uint_nonnil _ Hnil). }
  pose proof (Hparse a) as Ha. rewrite Heq, Hparse in Ha.
  injection Ha as Ha.
  rewrite <- (DecimalZ.of_to a), <- (DecimalZ.of_to b), Ha. reflexivity.
Qed.

(** [downloadAudio] neither sends a request, nor changes the stored
    artifact, nor writes to the console, and it returns. With an artifact
    stored it leaves the page as it is, an error panel included, and
    saves one file; two downloads at different instants save the same
    blob under different names. *)
Theorem download_saves_under_fresh_names :
  (forall now w,
      let '(out, w') := downloadAudio now w in
      out = Ok tt /\
      currentAudioBlob w' = currentAudioBlob w /\
      requests w' = requests w /\
      console w' = console w /\
      (currentAudioBlob w <> None -> page w' = page w))
  /\ (forall now1 now2 w blob,
        currentAudioBlob w = Some blob ->
        now1 <> now2 ->
        exists name1 name2,
          downloads (snd (downloadAudio now2 (snd (downloadAudio now1 w))))
          = (downloads w ++ [(blob, name1); (blob, name2)])%list /\
          name1 <> name2).
Proof.
  split.
  - intros now w. unfold downloadAudio.
    destruct (currentAudioBlob w) as [blob |] eqn:Hblob; cbn;
      rewrite ?Hblob; repeat split; congruence.
  - intros now1 now2 w blob Hblob Hnow.
    exists ("voiceover-" ++ int_to_string now1 ++ ".mp3"),
           ("voiceover-" ++ int_to_string now2 ++ ".mp3").
    split.
    + unfold downloadAudio. rewrite Hblob. cbn. rewrite Hblob. cbn.
      rewrite <- app_assoc. reflexivity.
    + intros Hname.
      change ("voiceover-" ++ int_to_string now1 ++ ".mp3")
        with ("voiceover-" ++ (int_to_string now1 ++ ".mp3")) in Hname.
      apply (inj (String.append "voiceover-")) in Hname.
      apply string_app_inv_tail in Hname.
      apply Hnow, int_to_string_inj, Hname.
Qed.

End DownloadFacts.

(** ** The further properties on the scenarios *)

Section FurtherScenarios.

Import RelaySpec RelayShape.

(** A browser's pre-flight, answered before anything else is looked at. *)
Lemma preflight_is_answered_empty_witness :
  let '(out, w) :=
    Relay.invoke (H := example_host) None unreachable preflight_request in
  out = Ok tt /\
  Relay.statusCode (Relay.res w) = 200%Z /\
  Relay.sent (Relay.res w) = Some Relay.EmptyBody /\
  Relay.fetched w = [] /\ Relay.console w = [].
Proof.
  apply (preflight_is_answered_empty (H := example_host) None unreachable
           preflight_request).
  reflexivity.
Defined.

Lemma other_methods_are_refused_witness :
  let '(out, w) :=
    Relay.invoke (H := example_host) None unreachable get_request in
  out = Ok tt /\
  answered_error w 405 (JStr "Method not allowed. Use POST.") /\
  Relay.fetched w = [] /\ Relay.console w = [].
Proof.
  apply (other_methods_are_refused (H := example_host) None unreachable
           get_request); discriminate.
Defined.

Lemma empty_key_is_no_key_witness :
  let '(out, w) :=
    Relay.invoke (H := example_host) (Some "") (answering hello_response)
      hello_request in
  out = Ok tt /\
  answered_error w 500
    (JStr "Server configuration error: API key not found") /\
  Relay.fetched w = [].
Proof.
  apply (empty_key_is_no_key (H := example_host) (Some "")
           (answering hello_response) hello_request); reflexivity.
Defined.

(** Scenario A once more: the audio goes out framed as audio, through
    one call, and nothing is logged. *)
(** A provider that refuses with 503 and a page of HTML. *)
Lemma unusable_error_body_gives_500_witness :
  let w := snd (Relay.invoke (H := example_host) (Some "secret")
                  (answering html_error_response) hello_request) in
  answered_error w 500
    (JStr "Internal server error: Unexpected token <") /\
  Relay.console w
  = [Relay.LogError "Error:" (mkError "SyntaxError" "Unexpected token <")].
Proof.
  cbv zeta.
  destruct (unusable_error_body_gives_500 (H := example_host)
              (Some "secret") (answering html_error_response)
              hello_request hello_call html_error_response)
    as [Hparse _];
    [unfold contacted; vm_compute; left; reflexivity
    | reflexivity | reflexivity |].
  exact (Hparse (mkError "SyntaxError" "Unexpected token <") eq_refl).
Defined.

Lemma response_framing_witness :
  let w := snd (Relay.invoke (H := example_host) (Some "secret")
                  (answering hello_response) hello_request) in
  Relay.statusCode (Relay.res w) = 200%Z /\
  Relay.headers (Relay.res w) !! "Content-Type"
  = Some (Relay.HStr "audio/mpeg") /\
  Relay.headers (Relay.res w) !! "Content-Length" = Some (Relay.HNum 5).
Proof.
  cbv zeta.
  pose proof (response_framing (H := example_host) (Some "secret")
                (answering hello_response) hello_request) as Hframe.
  destruct (Relay.invoke (H := example_host) (Some "secret")
              (answering hello_response) hello_request) as [out w] eqn:Hrun.
  destruct Hframe as (Hbytes & _).
  cbn [snd].
  apply (Hbytes [x48; x65; x6c; x6c; x6f]).
  vm_compute in Hrun. injection Hrun as _ <-. reflexivity.
Defined.

Lemma provider_called_exactly_once_when_valid_witness :
  reaches_provider (Some "secret") hello_request = true /\
  exists apiKey payload,
    Some "secret" = Some apiKey /\
    Relay.fetched
      (snd (Relay.invoke (H := example_host) (Some "secret")
              (answering hello_response) hello_request))
    = [ {| Relay.url :=
             "https://texttospeech.googleapis.com/v1/text:synthesize?key="
             ++ apiKey;
           Relay.fetch_method := "POST";
           Relay.fetch_headers := [("Content-Type", "application/json")];
           Relay.fetch_body := payload |} ].
Proof.
  split; [reflexivity |].
  destruct (provider_called_exactly_once_when_valid (H := example_host)
              (Some "secret") (answering hello_response) hello_request)
    as (_ & Hcalled & _).
  apply Hcalled. reflexivity.
Defined.

(** Scenario E: the provider's error body is logged. *)
Lemma relay_logging_witness :
  let w := snd (Relay.invoke (H := example_host) (Some "secret")
                  (answering quota_response) hello_request) in
  In (Relay.LogValue "Google API Error:"
        (JObj [("error", JObj [("message", JStr "quota exceeded")])]))
     (Relay.console w) /\
  exists c r,
    Relay.fetched w = [c] /\ answering quota_response c = Ok r /\
    Relay.response_ok r = false /\
    Relay.response_json r
    = Ok (JObj [("error", JObj [("message", JStr "quota exceeded")])]).
Proof.
  cbv zeta.
  assert (Hin : In (Relay.LogValue "Google API Error:"
                      (JObj [("error",
                              JObj [("message", JStr "quota exceeded")])]))
                   (Relay.console
                      (snd (Relay.invoke (H := example_host)
                              (Some "secret") (answering quota_response)
                              hello_request))))
    by (vm_compute; left; reflexivity).
  split; [exact Hin |].
  destruct (relay_logging (H := example_host) (Some "secret")
              (answering quota_response) hello_request)
    as (_ & _ & _ & Hvalue & _).
  exact (Hvalue _ _ Hin).
Defined.

Import Client ClientSpec ClientShape.

(** The relay refuses with Scenario D's body: the user reads its message. *)
Lemma failure_is_reported_witness :
  let w' := snd (generateAudio (H := example_host) relay_misconfigured
                   hello_form initial_world) in
  errorText_textContent (page w')
  = "Server configuration error: API key not found" /\
  errorMessage_show (page w') = true.
Proof.
  cbv zeta.
  destruct (failure_is_reported (H := example_host) relay_misconfigured
              hello_form initial_world) as (_ & Hrelay & _).
  { vm_compute. lia. }
  destruct (Hrelay
              {| response_status := 500;
                 response_json :=
                   Ok (JObj [("error", JStr
                     "Server configuration error: API key not found")]);
                 response_blob :=
                   Ok {| blob_bytes := [];
                         blob_type := "application/json" |} |}
              (JObj [("error", JStr
                 "Server configuration error: API key not found")])
              "Server configuration error: API key not found")
    as (Htext & Hshown & _);
    try reflexivity; [discriminate |].
  split; [exact Htext | exact Hshown].
Defined.

(** After a success and a rejected text the preview is still shown, and
    a download saves the blob of the success. *)
Lemma preview_means_downloadable_witness :
  let w := session (H := example_host)
             [Generate hello_form relay_ok; Generate short_form relay_ok]
             initial_world in
  audioPreview_show (page w) = true /\
  exists blob,
    currentAudioBlob w = Some blob /\
    downloadAudio 1730000000000%Z w
    = (Ok tt,
       {| page := page w;
          currentAudioBlob := Some blob;
          requests := requests w;
          downloads :=
            downloads w
            ++ [(blob, "voiceover-" ++ int_to_string 1730000000000%Z
                       ++ ".mp3")];
          console := console w |}).
Proof.
  cbv zeta. split; [reflexivity |].
  apply (preview_means_downloadable (H := example_host)
           [Generate hello_form relay_ok; Generate short_form relay_ok]
           1730000000000%Z).
  left. reflexivity.
Defined.

Lemma panels_after_attempt_witness :
  let w1 := session (H := example_host) [Generate hello_form relay_ok]
              initial_world in
  let w' := snd (generateAudio (H := example_host) relay_ok short_form w1) in
  errorMessage_show (page w') = true /\
  successMessage_show (page w') = true /\
  audioPreview_show (page w') = true /\
  audioPlayer_src (page w') = Some hello_blob /\
  currentAudioBlob w' = Some hello_blob.
Proof.
  cbv zeta.
  destruct (panels_after_attempt (H := example_host) relay_ok short_form
              (session (H := example_host) [Generate hello_form relay_ok]
                 initial_world)) as [Hrejected _].
  destruct Hrejected as (Herr & Hsucc & Hprev & Hsrc & Hblob);
    [vm_compute; lia |].
  rewrite Herr, Hsucc, Hprev, Hsrc, Hblob. repeat split.
Defined.

Lemma short_count_is_rejected_witness :
  let w' := snd (generateAudio (H := example_host) relay_ok short_form
                   initial_world) in
  requests w' = [] /\ errorMessage_show (page w') = true.
Proof.
  cbv zeta.
  destruct (short_count_is_rejected (H := example_host)) as [Hshort _].
  destruct (Hshort relay_ok short_form initial_world)
    as (Hreq & Hshown & _); [vm_compute; lia |].
  split; [exact Hreq | exact Hshown].
Defined.

Lemma download_saves_under_fresh_names_witness :
  exists name1 name2,
    downloads
      (snd (downloadAudio 2%Z
              (snd (downloadAudio 1%Z
                      (session (H := example_host)
                         [Generate hello_form relay_ok] initial_world)))))
    = [(hello_blob, name1); (hello_blob, name2)] /\
    name1 <> name2.
Proof.
  destruct download_saves_under_fresh_names as [_ Hnames].
  apply (Hnames 1%Z 2%Z
           (session (H := example_host) [Generate hello_form relay_ok]
              initial_world) hello_blob);
    [reflexivity | discriminate].
Defined.

End FurtherScenarios.
